(** * Battery_Watcher_Free: a shallow embedding of the battery watcher script

    The script polls the battery sensor once a minute, classifies the reading
    as low, high or normal, prints a status line and, when the status changed
    and the last notification is more than ten seconds old, notifies through
    Telegram and through a desktop toast.

    Conventions of the embedding.
    - Python [int] is [Z]; a Python [float] is the rational it denotes
      exactly.  The battery percent is only rounded, so it is any [Q]; clock
      readings are subtracted, so they are [double]s, the rationals binary64
      represents, and their difference is rounded as the hardware does.
    - Python [str] is [string], holding the UTF-8 bytes of the text.
    - The outside world (sensor, clock, network, toast facility) answers
      through a record of oracle values, one record per loop cycle; what the
      script does to the outside world is a list of [event]s.
    - A computation yields its events and either a value or a raised
      exception ([Eff]). *)

From Stdlib Require Import ZArith QArith Qround Qabs Qpower String Ascii List Bool Lia Lqa.
From Stdlib Require Import DecimalString DecimalN DecimalPos.
Import ListNotations.

Local Open Scope string_scope.
Local Open Scope Z_scope.

(** ** Python builtins the script relies on *)

Module Py.

(** Truth value of a [str]: only the empty string is false. *)
Definition truthy (s : string) : bool :=
  match s with
  | EmptyString => false
  | String _ _ => true
  end.

(** Decimal digits of a natural number, no leading zero, ["0"] for zero. *)
Definition digits (n : N) : string :=
  NilZero.string_of_uint (N.to_uint n).

Fixpoint zeros (k : nat) : string :=
  match k with
  | O => EmptyString
  | S k' => String "0" (zeros k')
  end.

(** [format(z, "d")], which is also [str(z)]. *)
Definition format_d (z : Z) : string :=
  if z <? 0 then String "-" (digits (Z.abs_N z)) else digits (Z.abs_N z).

(** [format(z, "0wd")]: sign first, then zeros up to a total width [w]. *)
Definition format_0wd (w : nat) (z : Z) : string :=
  let sign := if z <? 0 then "-" else "" in
  let ds := digits (Z.abs_N z) in
  sign ++ zeros (w - String.length sign - String.length ds) ++ ds.

(** [str(b)] for a [bool]. *)
Definition str_bool (b : bool) : string :=
  if b then "True" else "False".

(** [divmod(a, b)]: floor division and the remainder with the divisor's
    sign, which is what [Z.div] and [Z.modulo] compute. *)
Definition divmod (a b : Z) : Z * Z := (a / b, a mod b).

(** [round(x)] with one argument: the nearest integer, ties to the even
    neighbour. *)
Definition round (x : Q) : Z :=
  let f := Qfloor x in
  match Qcompare (x - inject_Z f) (1 # 2) with
  | Lt => f
  | Gt => f + 1
  | Eq => if Z.even f then f else f + 1
  end.

Definition upper_ascii (c : ascii) : ascii :=
  let n := nat_of_ascii c in
  if (97 <=? n)%nat && (n <=? 122)%nat then ascii_of_nat (n - 32) else c.

(** [s.upper()] on ASCII text. *)
Fixpoint upper (s : string) : string :=
  match s with
  | EmptyString => EmptyString
  | String c s' => String (upper_ascii c) (upper s')
  end.

End Py.

(** ** Python floats: IEEE 754 binary64 *)

Module Double.

(** [floor (log2 x)] for positive [x]. *)
Definition ilog2 (x : Q) : Z :=
  if Qle_bool 1 x then Z.log2 (Qfloor x)
  else - Z.log2_up (Qceiling (/ x)).

(** The exponent of the last significant bit of the doubles around [x]:
    53 significant bits, and nothing finer than 2^-1074. *)
Definition ulp_exp (x : Q) : Z := Z.max (ilog2 x - 52) (-1074).

(** Positive [x] rounded to the nearest multiple of its last bit, ties to
    the even multiple. *)
Definition round_pos (x : Q) : Q :=
  (inject_Z (Py.round (x * 2 ^ (- ulp_exp x))) * 2 ^ ulp_exp x)%Q.

(** The double nearest to [x], ties to even.  Overflow to infinity is left
    out: it needs a magnitude of 2^1024, which no clock reading has. *)
Definition round (x : Q) : Q :=
  match Qcompare x 0 with
  | Eq => 0%Q
  | Gt => round_pos x
  | Lt => (- round_pos (- x))%Q
  end.

End Double.

(** A finite double: a rational that rounding leaves in place. *)
Record double := as_double {
  dval :> Q;
  dval_ok : Qeq_bool (Double.round dval) dval = true
}.

(** The double with value [q], for writing down sample values; a [q] that
    is not a double gives 0.0. *)
Definition double_of (q : Q) : double :=
  match Qeq_bool (Double.round q) q as b
        return (Qeq_bool (Double.round q) q = b -> double) with
  | true => fun ok => as_double q ok
  | false => fun _ => as_double 0 eq_refl
  end eq_refl.

(** [a - b] on floats: the exact difference, rounded.  The result is only
    compared, so it is kept as its value. *)
Definition double_sub (a b : double) : Q := Double.round (a - b).

(** ** psutil constants *)

(** [psutil.POWER_TIME_UNKNOWN] and [psutil.POWER_TIME_UNLIMITED], the two
    sentinels the sensor reports in place of a number of seconds. *)
Definition POWER_TIME_UNKNOWN : Z := -1.
Definition POWER_TIME_UNLIMITED : Z := -2.

(** ** Helpers *)

Definition secs_to_hms (secs : option Z) : string :=
  match secs with
  | None => "unknown"
  | Some secs =>
      if (secs =? POWER_TIME_UNKNOWN) || (secs =? POWER_TIME_UNLIMITED)
      then "unknown"
      else if secs >? 60 * 60 * 24 * 7
      then "no driver estimate"
      else
        let '(mm, ss) := Py.divmod secs 60 in
        let '(hh, mm) := Py.divmod mm 60 in
        Py.format_d hh ++ ":" ++ Py.format_0wd 2 mm ++ ":" ++ Py.format_0wd 2 ss
  end.

(** What [psutil.sensors_battery()] returns when a battery is present. *)
Record sbattery := {
  percent : Q;
  secsleft : option Z;
  power_plugged : option bool
}.

Inductive status := low | high | normal.

Definition status_str (s : status) : string :=
  match s with
  | low => "low"
  | high => "high"
  | normal => "normal"
  end.

Definition status_eqb (a b : status) : bool :=
  match a, b with
  | low, low | high, high | normal, normal => true
  | _, _ => false
  end.

(** The dictionary [check_battery_level] returns. *)
Record battery_info := {
  info_status : status;
  info_percent : Z;
  info_plugged : bool;
  info_time_hms : string
}.

(** [bool(x)] for the tri-state [power_plugged]: [None] counts as false. *)
Definition bool_of_plugged (p : option bool) : bool :=
  match p with
  | Some b => b
  | None => false
  end.

(** The part of [check_battery_level] after the sensor answered. *)
Definition battery_sample (low_threshold high_threshold : Z) (bat : sbattery)
  : battery_info :=
  let percent := Py.round (percent bat) in
  let plugged := bool_of_plugged (power_plugged bat) in
  let human := secs_to_hms (secsleft bat) in
  let status :=
    if negb plugged && (percent <=? low_threshold) then low
    else if plugged && (percent >=? high_threshold) then high
    else normal in
  {| info_status := status;
     info_percent := percent;
     info_plugged := plugged;
     info_time_hms := human |}.

(** ** Reading a duration back

    The inverse direction, used to state that the text [secs_to_hms] builds
    denotes the number of seconds it was given: the fields between colons,
    the two-digit shape of minutes and seconds, and the value of the whole. *)

Definition is_digit (c : ascii) : bool :=
  let n := nat_of_ascii c in
  (48 <=? n)%nat && (n <=? 57)%nat.

Fixpoint all_digits (s : string) : bool :=
  match s with
  | EmptyString => true
  | String c s' => is_digit c && all_digits s'
  end.

(** The fields of [s] separated by colons. *)
Fixpoint split_colon (s : string) : list string :=
  match s with
  | EmptyString => [EmptyString]
  | String c s' =>
      if Ascii.eqb c ":" then EmptyString :: split_colon s'
      else match split_colon s' with
           | f :: fs => String c f :: fs
           | [] => [String c EmptyString]
           end
  end.

(** The number a non-empty run of decimal digits denotes. *)
Definition parse_nat (s : string) : option Z :=
  option_map (fun u => Z.of_N (N.of_uint u)) (NilZero.uint_of_string s).

(** The digit character of [d], for [0 <= d <= 9]. *)
Definition digit_char (d : Z) : ascii := ascii_of_nat (48 + Z.to_nat d).

(** A value below one hundred written with exactly two digits. *)
Definition two_digits (n : Z) : string :=
  String (digit_char (n / 10)) (String (digit_char (n mod 10)) EmptyString).

Definition hms_to_secs (s : string) : option Z :=
  match split_colon s with
  | [h; m; x] =>
      match parse_nat h, parse_nat m, parse_nat x with
      | Some hh, Some mm, Some ss =>
          if (String.length m =? 2)%nat && (String.length x =? 2)%nat
             && (mm <? 60) && (ss <? 60)
          then Some (hh * 3600 + mm * 60 + ss)
          else None
      | _, _, _ => None
      end
  | _ => None
  end.

(** ** Effects: events, exceptions, and the outside world *)

(** The exception classes that matter to the handlers of the script:
    [HTTPError] is a subclass of [URLError], which like [TimeoutError] is an
    [OSError]; all of these and [OtherException] derive from [Exception];
    [KeyboardInterrupt] and [SystemExit] derive from [BaseException] only. *)
Inductive exn_class :=
| HTTPError | URLError | TimeoutError | OSError | OtherException
| KeyboardInterrupt | SystemExit.

Record exn := {
  exn_cls : exn_class;
  exn_str : string   (* what [str(e)] gives *)
}.

Definition is_HTTPError (e : exn) : bool :=
  match exn_cls e with
  | HTTPError => true
  | _ => false
  end.

Definition is_Exception (e : exn) : bool :=
  match exn_cls e with
  | KeyboardInterrupt | SystemExit => false
  | _ => true
  end.

(** What the script does to the outside world. *)
Inductive event :=
| Print (line : string)
| HttpPost (url : string) (headers body : list (string * string)) (timeout : Z)
| Toast (title msg : string)
| Sleep (seconds : Z).

(** The answers of the outside world during one cycle of the loop.  [None]
    in an outcome field means the call returned normally. *)
Record world := {
  sensors_battery : option sbattery;   (* psutil.sensors_battery() *)
  clock_check : double;                (* time.time() in the guard *)
  clock_stamp : double;                (* time.time() stored in last_notify *)
  urlopen_outcome : option exn;        (* urllib.request.urlopen(req, timeout=10) *)
  read_outcome : option exn;           (* resp.read() *)
  toast_outcome : option exn           (* win11_toast(title, msg) *)
}.

Inductive result (A : Type) :=
| Ret (a : A)
| Raise (e : exn).

Arguments Ret {A} a.
Arguments Raise {A} e.

(** Events emitted so far, and how the computation ended. *)
Definition Eff (A : Type) : Type := list event * result A.

Definition ret {A} (a : A) : Eff A := ([], Ret a).

Definition bind {A B} (m : Eff A) (k : A -> Eff B) : Eff B :=
  match m with
  | (t, Ret a) => let '(t', r) := k a in ((t ++ t')%list, r)
  | (t, Raise e) => (t, Raise e)
  end.

Notation "x <- m ;; k" := (bind m (fun x => k))
  (at level 61, m at next level, right associativity).
Notation "m ;; k" := (bind m (fun _ => k))
  (at level 61, right associativity).

Definition emit (ev : event) : Eff unit := ([ev], Ret tt).

(** An external call whose outcome the world decides. *)
Definition outcome (o : option exn) : Eff unit :=
  match o with
  | None => ret tt
  | Some e => ([], Raise e)
  end.

(** [try: m  except ...:], the handler saying which exceptions it catches. *)
Definition try_except {A} (m : Eff A) (handler : exn -> option (Eff A)) : Eff A :=
  match m with
  | (t, Ret a) => (t, Ret a)
  | (t, Raise e) =>
      match handler e with
      | Some h => let '(t', r) := h in ((t ++ t')%list, r)
      | None => (t, Raise e)
      end
  end.

(** [print(a, b)] writes the two, separated by a space. *)
Definition print (line : string) : Eff unit := emit (Print line).
Definition print2 (a b : string) : Eff unit := print (a ++ " " ++ b).

Definition check_battery_level (w : world) (low_threshold high_threshold : Z)
  : Eff (option battery_info) :=
  match sensors_battery w with
  | None => print "No battery detected." ;; ret None
  | Some bat => ret (Some (battery_sample low_threshold high_threshold bat))
  end.

(** ** Telegram *)

(** The URL, the JSON body and the [Request] object are built before the
    [try]; for [str] arguments none of the three raises.  The body is kept
    as the key/value pairs it serialises. *)
Definition send_telegram_message (w : world) (bot_token chat_id text : string)
  : Eff bool :=
  if negb (Py.truthy bot_token) || negb (Py.truthy chat_id) then ret false
  else
    let url := "https://api.telegram.org/bot" ++ bot_token ++ "/sendMessage" in
    let payload := [("chat_id", chat_id); ("text", text)] in
    let headers := [("Content-Type", "application/json")] in
    try_except
      (emit (HttpPost url headers payload 10) ;;
       outcome (urlopen_outcome w) ;;
       outcome (read_outcome w) ;;
       ret true)
      (fun e =>
         if is_HTTPError e
         then Some (print2 "Telegram HTTP error:" (exn_str e) ;; ret false)
         else if is_Exception e
         then Some (print2 "Telegram send failed:" (exn_str e) ;; ret false)
         else None).

(** ** Windows toast and the main loop *)

Record loop_state := {
  last_status : option status;
  last_notify : double
}.

Definition initial_state : loop_state :=
  {| last_status := None; last_notify := double_of 0 |}.

Definition LOW_THRESHOLD : Z := 20.
Definition HIGH_THRESHOLD : Z := 85.
Definition POLL_SECONDS : Z := 60.

(** [x > y] on float values. *)
Definition Qgtb (x y : Q) : bool := negb (Qle_bool x y).

(** [status != last_status], [last_status] being [None] or a status. *)
Definition status_differs (s : status) (last : option status) : bool :=
  match last with
  | None => true
  | Some s' => negb (status_eqb s s')
  end.

Definition em_dash : string := "—".
Definition battery_emoji : string := "🔋".

Definition status_message (info : battery_info) : string :=
  "Battery " ++ Py.upper (status_str (info_status info)) ++ " " ++ em_dash ++ " "
  ++ Py.format_d (info_percent info) ++ "% "
  ++ "(plugged: " ++ Py.str_bool (info_plugged info) ++ ") " ++ em_dash ++ " "
  ++ info_time_hms info.

Section MainLoop.

(** [BOT_TOKEN] and [CHAT_ID] are string literals in [main]; they are
    credentials, and the loop looks at nothing but whether they are empty.
    [HAVE_WIN11TOAST] is set once, when the module is loaded. *)
Variables BOT_TOKEN CHAT_ID : string.
Variable HAVE_WIN11TOAST : bool.

Definition send_windows_toast (w : world) (title msg : string) : Eff unit :=
  if HAVE_WIN11TOAST then
    try_except
      (emit (Toast title msg) ;; outcome (toast_outcome w))
      (fun e =>
         if is_Exception e
         then Some (print2 "Toast failed:" (exn_str e))
         else None)
  else ret tt.

(** The body of the guarded block of [main]: both channels, then the new
    value of [last_notify]. *)
Definition notify (w : world) (msg : string) : Eff double :=
  (if Py.truthy BOT_TOKEN && Py.truthy CHAT_ID
   then send_telegram_message w BOT_TOKEN CHAT_ID (battery_emoji ++ " " ++ msg) ;; ret tt
   else ret tt) ;;
  send_windows_toast w "Battery Watcher" msg ;;
  ret (clock_stamp w).

(** One iteration of [while True]. *)
Definition main_cycle (st : loop_state) (w : world) : Eff loop_state :=
  info <- check_battery_level w LOW_THRESHOLD HIGH_THRESHOLD ;;
  st' <- match info with
         | Some info =>
             let msg := status_message info in
             print msg ;;
             stamp <- (if status_differs (info_status info) (last_status st)
                          && Qgtb (double_sub (clock_check w) (last_notify st)) 10
                       then notify w msg
                       else ret (last_notify st)) ;;
             ret {| last_status := Some (info_status info);
                    last_notify := stamp |}
         | None => ret st
         end ;;
  emit (Sleep POLL_SECONDS) ;;
  ret st'.

(** The loop over the answers of the world for its first cycles. *)
Fixpoint run_cycles (st : loop_state) (ws : list world) : Eff loop_state :=
  match ws with
  | [] => ret st
  | w :: ws' => st' <- main_cycle st w ;; run_cycles st' ws'
  end.

Definition main (ws : list world) : Eff loop_state :=
  print "Battery Watcher started..." ;;
  run_cycles initial_state ws.

End MainLoop.

(** ** Observations on traces *)

(** An event that sends a notification, on either channel. *)
Definition is_send (ev : event) : bool :=
  match ev with
  | HttpPost _ _ _ _ | Toast _ _ => true
  | Print _ | Sleep _ => false
  end.

Definition sends (t : list event) : list event := filter is_send t.

Definition trace {A} (m : Eff A) : list event := fst m.

(** The exception the HTTP exchange ends with, if any: the one [urlopen]
    raises, or else the one reading the response raises. *)
Definition http_failure (w : world) : option exn :=
  match urlopen_outcome w with
  | Some e => Some e
  | None => read_outcome w
  end.

(** The line the handlers of [send_telegram_message] print for [e]. *)
Definition telegram_log_line (e : exn) : string :=
  (if is_HTTPError e then "Telegram HTTP error:" else "Telegram send failed:")
  ++ " " ++ exn_str e.

(** The request [send_telegram_message] makes. *)
Definition telegram_request (bot_token chat_id text : string) : event :=
  HttpPost ("https://api.telegram.org/bot" ++ bot_token ++ "/sendMessage")
           [("Content-Type", "application/json")]
           [("chat_id", chat_id); ("text", text)] 10.

(** ** Sample worlds *)

(** A cycle in which the sensor answers [bat], both clock readings are [t]
    and every external call succeeds. *)
Definition calm_world (bat : option sbattery) (t : Q) : world :=
  {| sensors_battery := bat; clock_check := double_of t; clock_stamp := double_of t;
     urlopen_outcome := None; read_outcome := None; toast_outcome := None |}.

Definition reading (p : Q) (plugged : bool) : sbattery :=
  {| percent := p; secsleft := Some 3661; power_plugged := Some plugged |}.

(** A short day: no battery yet, then low on battery, then still low. *)
Definition three_cycles : list world :=
  [calm_world None 1730000000;
   calm_world (Some (reading 15 false)) 1730000060;
   calm_world (Some (reading 14 false)) 1730000120].

(** ** Observations on cycles and runs *)

(** An external call that returns, or raises something the handlers of the
    script catch. *)
Definition outcome_ok (o : option exn) : bool :=
  match o with
  | None => true
  | Some e => is_Exception e
  end.

(** A world in which neither channel raises past its handler. *)
Definition benign (w : world) : bool :=
  outcome_ok (http_failure w) && outcome_ok (toast_outcome w).

(** The status the cycle's sample is classified into, if there is one. *)
Definition sample_status (w : world) : option status :=
  match sensors_battery w with
  | Some bat => Some (info_status (battery_sample LOW_THRESHOLD HIGH_THRESHOLD bat))
  | None => None
  end.

(** The status of the most recent sample among [ws], or [init] when no
    cycle had one. *)
Definition latest_status (init : option status) (ws : list world) : option status :=
  fold_left (fun acc w => match sample_status w with
                          | Some s => Some s
                          | None => acc
                          end) ws init.

Definition is_sleep (ev : event) : bool :=
  match ev with
  | Sleep _ => true
  | _ => false
  end.

(** The sends of a notification for [msg], in order: Telegram when both
    credentials are set, then the toast when the facility is there. *)
Definition expected_sends (bot_token chat_id : string) (have_toast : bool)
  (msg : string) : list event :=
  ((if Py.truthy bot_token && Py.truthy chat_id
    then [telegram_request bot_token chat_id (battery_emoji ++ " " ++ msg)]
    else [])
   ++ (if have_toast then [Toast "Battery Watcher" msg] else []))%list.

(** * Properties *)

(** ** Formatting helpers *)

Example secs_to_hms_negative : secs_to_hms (Some (-3)) = "-1:59:57".
Proof. reflexivity. Qed.

Example round_half_even :
  (Py.round (5 # 2), Py.round (7 # 2), Py.round (-(1 # 2)), Py.round (201 # 2))
  = (2, 4, 0, 100).
Proof. reflexivity. Qed.

Example format_0wd_negative : Py.format_0wd 3 (-5) = "-05".
Proof. reflexivity. Qed.

Example hms_to_secs_sample : hms_to_secs "1:01:01" = Some 3661.
Proof. reflexivity. Qed.

Example hms_to_secs_rejects :
  (hms_to_secs "1:1:01", hms_to_secs "1:61:01", hms_to_secs "unknown")
  = (None, None, None).
Proof. reflexivity. Qed.

(** ** The classifier *)

(** C1.  When the sensor answers, [check_battery_level] returns a record
    whose percent is the sensor's percent rounded, whose plugged flag is the
    sensor's (an undetermined one counting as false), and whose status
    follows from these two and the thresholds by three rules tried in
    order: not plugged and percent at most the low threshold gives low;
    otherwise plugged and percent at least the high threshold gives high;
    otherwise normal.  Both comparisons include the threshold. *)
Theorem classifier_rules (low_threshold high_threshold : Z) (bat : sbattery) :
  let info := battery_sample low_threshold high_threshold bat in
  let p := Py.round (percent bat) in
  let plugged := bool_of_plugged (power_plugged bat) in
  (forall w, sensors_battery w = Some bat ->
             check_battery_level w low_threshold high_threshold
             = ret (Some info)) /\
  info_percent info = p /\
  info_plugged info = plugged /\
  (plugged = false -> p <= low_threshold -> info_status info = low) /\
  (~ (plugged = false /\ p <= low_threshold) ->
   plugged = true -> p >= high_threshold -> info_status info = high) /\
  (~ (plugged = false /\ p <= low_threshold) ->
   ~ (plugged = true /\ p >= high_threshold) -> info_status info = normal) /\
  (plugged = false -> p = low_threshold -> info_status info = low) /\
  (plugged = true -> p = high_threshold -> info_status info = high).
Proof.
  split; [intros w Hw; unfold check_battery_level; now rewrite Hw|].
  split; [reflexivity|]. split; [reflexivity|].
  unfold battery_sample; cbn.
  set (p := Py.round (percent bat)).
  destruct (bool_of_plugged (power_plugged bat)); cbn;
    destruct (Z.leb_spec p low_threshold);
    destruct (Z.geb_spec p high_threshold);
    repeat split; intros; try reflexivity; try discriminate; try lia;
    exfalso; intuition lia.
Qed.

Example classifier_scenarios :
  let sample p plugged :=
    info_status (battery_sample 20 85
      {| percent := p; secsleft := None; power_plugged := Some plugged |}) in
  (sample 15%Q false, sample 90%Q true, sample 50%Q true, sample 20%Q false,
   sample 85%Q true, sample 20%Q true, sample 85%Q false)
  = (low, high, normal, low, high, normal, normal).
Proof. reflexivity. Qed.

(** ** Time formatting *)

(** C2.  [secs_to_hms] gives "1:01:01" for 3661, "unknown" for a missing
    value and for both sentinels, and "no driver estimate" for every value
    above 604800 seconds, 700000 among them. *)
Theorem secs_to_hms_cases :
  secs_to_hms (Some 3661) = "1:01:01" /\
  secs_to_hms None = "unknown" /\
  secs_to_hms (Some POWER_TIME_UNKNOWN) = "unknown" /\
  secs_to_hms (Some POWER_TIME_UNLIMITED) = "unknown" /\
  (forall secs, secs > 604800 -> secs_to_hms (Some secs) = "no driver estimate") /\
  secs_to_hms (Some 700000) = "no driver estimate".
Proof.
  repeat split; try reflexivity.
  intros secs Hs. unfold secs_to_hms, POWER_TIME_UNKNOWN, POWER_TIME_UNLIMITED.
  destruct (Z.eqb_spec secs (-1)); [lia|].
  destruct (Z.eqb_spec secs (-2)); [lia|].
  cbn [orb].
  replace (secs >? 60 * 60 * 24 * 7) with true; [reflexivity|].
  symmetry. apply Z.gtb_lt. lia.
Qed.

(** ** The percent field *)

Lemma round_cases (x : Q) :
  Py.round x = Qfloor x \/ Py.round x = Qfloor x + 1.
Proof.
  unfold Py.round.
  destruct (Qcompare (x - inject_Z (Qfloor x)) (1 # 2));
    [destruct (Z.even (Qfloor x))| |]; auto.
Qed.

Lemma round_integer (x : Q) (n : Z) : (x == inject_Z n)%Q -> Py.round x = n.
Proof.
  intros E. unfold Py.round.
  assert (F : Qfloor x = n) by (rewrite E; apply Qfloor_Z).
  rewrite F.
  destruct (Qcompare_spec (x - inject_Z n) (1 # 2)) as [H|H|H];
    try reflexivity; rewrite E in H; exfalso; lra.
Qed.

Lemma round_monotone (x y : Q) : (x <= y)%Q -> Py.round x <= Py.round y.
Proof.
  intros Hxy.
  pose proof (Qfloor_resp_le _ _ Hxy) as Hf.
  destruct (Z.eq_dec (Qfloor x) (Qfloor y)) as [E|NE].
  - unfold Py.round. rewrite <- E.
    destruct (Qcompare_spec (x - inject_Z (Qfloor x)) (1 # 2)) as [Hx|Hx|Hx];
      destruct (Qcompare_spec (y - inject_Z (Qfloor x)) (1 # 2)) as [Hy|Hy|Hy];
      try destruct (Z.even (Qfloor x)); try lia; exfalso; lra.
  - pose proof (round_cases x). pose proof (round_cases y). lia.
Qed.

Lemma round_near (x : Q) :
  (Qabs (x - inject_Z (Py.round x)) <= 1 # 2)%Q.
Proof.
  unfold Py.round.
  pose proof (Qfloor_le x) as Hlo.
  pose proof (Qlt_floor x) as Hhi.
  rewrite inject_Z_plus in Hhi.
  change (inject_Z 1) with 1%Q in Hhi.
  apply Qabs_Qle_condition.
  destruct (Qcompare_spec (x - inject_Z (Qfloor x)) (1 # 2)) as [He|Hl|Hg].
  - destruct (Z.even (Qfloor x)).
    + rewrite He. split; discriminate.
    + rewrite inject_Z_plus. change (inject_Z 1) with 1%Q. split; lra.
  - split; lra.
  - rewrite inject_Z_plus. change (inject_Z 1) with 1%Q. split; lra.
Qed.

Lemma round_bounds (x : Q) (lo hi : Z) :
  (inject_Z lo <= x)%Q -> (x <= inject_Z hi)%Q -> lo <= Py.round x <= hi.
Proof.
  intros Hlo Hhi.
  pose proof (Qfloor_resp_le _ _ Hlo) as Hf1.
  pose proof (Qfloor_resp_le _ _ Hhi) as Hf2.
  rewrite Qfloor_Z in Hf1, Hf2.
  unfold Py.round.
  destruct (Qcompare_spec (x - inject_Z (Qfloor x)) (1 # 2)) as [He|Hl|Hg];
    [destruct (Z.even (Qfloor x))| |]; try lia.
  - (* a tie rounded up: the floor is below hi *)
    destruct (Z.eq_dec (Qfloor x) hi) as [E|]; [|lia].
    rewrite E in He. lra.
  - destruct (Z.eq_dec (Qfloor x) hi) as [E|]; [|lia].
    rewrite E in Hg. lra.
Qed.

Lemma round_tie_even (x : Q) :
  (Qabs (x - inject_Z (Py.round x)) == 1 # 2)%Q -> Z.even (Py.round x) = true.
Proof.
  unfold Py.round.
  pose proof (Qfloor_le x) as Hlo.
  pose proof (Qlt_floor x) as Hhi.
  rewrite inject_Z_plus in Hhi. change (inject_Z 1) with 1%Q in Hhi.
  destruct (Qcompare_spec (x - inject_Z (Qfloor x)) (1 # 2)) as [He|Hl|Hg].
  - destruct (Z.even (Qfloor x)) eqn:Hev; intros _; [exact Hev|].
    rewrite Z.even_add, Hev. reflexivity.
  - intros Habs. exfalso.
    assert (H : (Qabs (x - inject_Z (Qfloor x)) < 1 # 2)%Q)
      by (apply Qabs_Qlt_condition; split; lra).
    rewrite Habs in H. discriminate H.
  - rewrite inject_Z_plus. change (inject_Z 1) with 1%Q.
    intros Habs. exfalso.
    assert (H : (Qabs (x - (inject_Z (Qfloor x) + 1)) < 1 # 2)%Q)
      by (apply Qabs_Qlt_condition; split; lra).
    rewrite Habs in H. discriminate H.
Qed.

(** C9, as the code has it.  The percent field is the integer nearest to
    the sensor's percent, ties going to the even neighbour: it is at most
    one half away from the reading, and even when exactly one half away.
    So it lies between 0 and 100 whenever the sensor's percent does; and it
    is not clamped: a reading above 100.5 gives a field above 100, a
    reading below -0.5 a field below 0. *)
Theorem percent_rounded_in_range
  (low_threshold high_threshold : Z) (bat : sbattery) :
  let x := percent bat in
  let p := info_percent (battery_sample low_threshold high_threshold bat) in
  (Qabs (x - inject_Z p) <= 1 # 2)%Q /\
  ((Qabs (x - inject_Z p) == 1 # 2)%Q -> Z.even p = true) /\
  ((0 <= x)%Q -> (x <= 100)%Q -> 0 <= p <= 100) /\
  ((100 + (1 # 2) < x)%Q -> 100 < p) /\
  ((x < - (1 # 2))%Q -> p < 0).
Proof.
  cbn. pose proof (round_near (percent bat)) as Hn.
  split; [exact Hn|]. split; [apply round_tie_even|].
  split; [intros H0 H100; apply round_bounds; assumption|].
  apply Qabs_Qle_condition in Hn as [Hn1 Hn2].
  split; intros H; rewrite Zlt_Qlt; change (inject_Z 100) with 100%Q;
    change (inject_Z 0) with 0%Q; lra.
Qed.

Lemma percent_rounded_in_range_witness :
  let field p := info_percent (battery_sample 20 85
                   {| percent := p; secsleft := Some 3661;
                      power_plugged := Some true |}) in
  (field (41 # 2) = 20 /\ Z.even (field (41 # 2)) = true) /\
  (field (43 # 2) = 22 /\ Z.even (field (43 # 2)) = true) /\
  (field (995 # 10) = 100 /\ 0 <= field (995 # 10) <= 100) /\
  (field (1006 # 10) = 101 /\ 100 < field (1006 # 10)).
Proof.
  intros field.
  pose proof (fun p => percent_rounded_in_range 20 85
                {| percent := p; secsleft := Some 3661;
                   power_plugged := Some true |}) as T.
  destruct (T (41 # 2)) as (_ & T1 & _).
  destruct (T (43 # 2)) as (_ & T2 & _).
  destruct (T (995 # 10)) as (_ & _ & T3 & _).
  destruct (T (1006 # 10)) as (_ & _ & _ & T4 & _).
  split; [split; [reflexivity | apply T1; reflexivity]|].
  split; [split; [reflexivity | apply T2; reflexivity]|].
  split; [split; [reflexivity | apply T3; cbn; discriminate]|].
  split; [reflexivity | apply T4; reflexivity].
Defined.

(** C9 without the bound on the sensor's value fails: nothing clamps it.  A
    sensor percent of 255, which Windows reports for an unknown charge,
    gives a percent field of 255. *)
Lemma percent_out_of_range :
  let bat := {| percent := 255; secsleft := Some POWER_TIME_UNKNOWN;
                power_plugged := Some false |} in
  info_percent (battery_sample LOW_THRESHOLD HIGH_THRESHOLD bat) = 255 /\
  ~ (0 <= info_percent (battery_sample LOW_THRESHOLD HIGH_THRESHOLD bat) <= 100).
Proof.
  cbn. split; [reflexivity|]. vm_compute. intros [_ H]. apply H. reflexivity.
Qed.

(** ** Durations read back *)

Lemma is_digit_not_colon (c : ascii) :
  is_digit c = true -> Ascii.eqb c ":" = false.
Proof.
  destruct c as [[] [] [] [] [] [] [] []]; vm_compute; congruence.
Qed.

Lemma split_colon_field (a r : string) :
  all_digits a = true ->
  split_colon (a ++ String ":" r) = a :: split_colon r.
Proof.
  induction a as [|c a IH]; cbn [all_digits append split_colon]; intros H.
  - reflexivity.
  - apply andb_prop in H as [Hc Ha].
    rewrite (is_digit_not_colon c Hc), (IH Ha). reflexivity.
Qed.

Lemma split_colon_last (a : string) :
  all_digits a = true -> split_colon a = [a].
Proof.
  induction a as [|c a IH]; cbn [all_digits split_colon]; intros H.
  - reflexivity.
  - apply andb_prop in H as [Hc Ha].
    rewrite (is_digit_not_colon c Hc), (IH Ha). reflexivity.
Qed.

Lemma uint_all_digits (d : Decimal.uint) :
  all_digits (NilEmpty.string_of_uint d) = true.
Proof.
  induction d; cbn [NilEmpty.string_of_uint all_digits]; try rewrite IHd;
    reflexivity.
Qed.

Lemma digits_all_digits (n : N) : all_digits (Py.digits n) = true.
Proof.
  unfold Py.digits, NilZero.string_of_uint.
  destruct (N.to_uint n); try reflexivity; apply uint_all_digits.
Qed.

Lemma to_uint_nonnil (n : N) : N.to_uint n <> Decimal.Nil.
Proof.
  destruct n as [|p]; cbn; [discriminate | apply Unsigned.to_uint_nonnil].
Qed.

Lemma parse_nat_digits (n : N) : parse_nat (Py.digits n) = Some (Z.of_N n).
Proof.
  unfold parse_nat, Py.digits.
  rewrite NilZero.usu by apply to_uint_nonnil.
  cbn [option_map]. now rewrite DecimalN.Unsigned.of_to.
Qed.

Lemma format_d_nonneg (z : Z) :
  0 <= z -> Py.format_d z = Py.digits (Z.to_N z).
Proof.
  intros Hz. unfold Py.format_d.
  destruct (Z.ltb_spec z 0); [lia|].
  f_equal. destruct z; try reflexivity. lia.
Qed.

(** A boolean property checked on 0..99 holds below one hundred. *)
Lemma below_100 (P : Z -> bool) :
  forallb P (map Z.of_nat (seq 0 100)) = true ->
  forall m, 0 <= m < 100 -> P m = true.
Proof.
  intros H m Hm.
  rewrite forallb_forall in H. apply H.
  apply in_map_iff. exists (Z.to_nat m). split; [lia|].
  apply in_seq. lia.
Qed.

Lemma format_02d_two_digits (m : Z) :
  0 <= m < 100 -> Py.format_0wd 2 m = two_digits m.
Proof.
  intros Hm. apply String.eqb_eq. revert m Hm.
  apply (below_100 (fun m => String.eqb (Py.format_0wd 2 m) (two_digits m))).
  vm_compute. reflexivity.
Qed.

Lemma two_digits_read (m : Z) :
  0 <= m < 100 ->
  all_digits (two_digits m) = true /\ parse_nat (two_digits m) = Some m.
Proof.
  intros Hm.
  assert (H : all_digits (two_digits m)
              && match parse_nat (two_digits m) with
                 | Some k => k =? m
                 | None => false
                 end = true).
  { revert m Hm.
    apply (below_100 (fun m => all_digits (two_digits m)
                               && match parse_nat (two_digits m) with
                                  | Some k => k =? m
                                  | None => false
                                  end)).
    vm_compute. reflexivity. }
  apply andb_prop in H as [Hd Hp]. split; [exact Hd|].
  destruct (parse_nat (two_digits m)) as [k|]; [|discriminate].
  apply Z.eqb_eq in Hp. now subst.
Qed.

(** C10.  For 0 <= secs <= 604800 the text is H:MM:SS: H in plain decimal,
    MM and SS two digits each and below 60, and H*3600 + MM*60 + SS is
    [secs]; reading the text back gives [secs]. *)
Theorem secs_to_hms_roundtrip (secs : Z) :
  0 <= secs <= 604800 ->
  exists hh mm ss,
    secs_to_hms (Some secs)
    = Py.format_d hh ++ ":" ++ two_digits mm ++ ":" ++ two_digits ss /\
    0 <= hh /\ all_digits (Py.format_d hh) = true /\
    parse_nat (Py.format_d hh) = Some hh /\
    0 <= mm < 60 /\ 0 <= ss < 60 /\
    hh * 3600 + mm * 60 + ss = secs /\
    hms_to_secs (secs_to_hms (Some secs)) = Some secs.
Proof.
  intros Hs.
  pose proof (Z.div_mod secs 60 ltac:(lia)) as E1.
  pose proof (Z.div_mod (secs / 60) 60 ltac:(lia)) as E2.
  pose proof (Z.mod_pos_bound secs 60 ltac:(lia)) as B1.
  pose proof (Z.mod_pos_bound (secs / 60) 60 ltac:(lia)) as B2.
  assert (Hh : 0 <= secs / 60 / 60).
  { apply Z.div_pos; [apply Z.div_pos|]; lia. }
  set (hh := secs / 60 / 60) in *.
  set (mm := (secs / 60) mod 60) in *.
  set (ss := secs mod 60) in *.
  assert (Htext : secs_to_hms (Some secs)
                  = Py.format_d hh ++ ":" ++ two_digits mm ++ ":" ++ two_digits ss).
  { unfold secs_to_hms, POWER_TIME_UNKNOWN, POWER_TIME_UNLIMITED, Py.divmod.
    destruct (Z.eqb_spec secs (-1)); [lia|].
    destruct (Z.eqb_spec secs (-2)); [lia|].
    cbn [orb].
    destruct (Z.gtb_spec secs (60 * 60 * 24 * 7)); [lia|].
    fold ss mm hh.
    rewrite !format_02d_two_digits by lia. reflexivity. }
  pose proof (format_d_nonneg hh Hh) as Hfd.
  assert (Hhd : all_digits (Py.format_d hh) = true).
  { rewrite Hfd. apply digits_all_digits. }
  assert (Hhp : parse_nat (Py.format_d hh) = Some hh).
  { rewrite Hfd, parse_nat_digits. f_equal. lia. }
  destruct (two_digits_read mm ltac:(lia)) as [Hmd Hmp].
  destruct (two_digits_read ss ltac:(lia)) as [Hsd Hsp].
  exists hh, mm, ss.
  repeat (split; [first [exact Htext | exact Hh | exact Hhd | exact Hhp | lia]|]).
  rewrite Htext. unfold hms_to_secs.
  change (Py.format_d hh ++ ":" ++ two_digits mm ++ ":" ++ two_digits ss)
    with (Py.format_d hh ++ String ":" (two_digits mm ++ String ":" (two_digits ss))).
  rewrite (split_colon_field _ _ Hhd), (split_colon_field _ _ Hmd),
    (split_colon_last _ Hsd).
  rewrite Hhp, Hmp, Hsp.
  change (String.length (two_digits mm)) with 2%nat.
  change (String.length (two_digits ss)) with 2%nat.
  cbn [Nat.eqb andb].
  destruct (Z.ltb_spec mm 60); [|lia].
  destruct (Z.ltb_spec ss 60); [|lia].
  cbn [andb]. f_equal. lia.
Qed.

Lemma secs_to_hms_roundtrip_witness :
  exists hh mm ss,
    secs_to_hms (Some 86399)
    = Py.format_d hh ++ ":" ++ two_digits mm ++ ":" ++ two_digits ss /\
    0 <= hh /\ all_digits (Py.format_d hh) = true /\
    parse_nat (Py.format_d hh) = Some hh /\
    0 <= mm < 60 /\ 0 <= ss < 60 /\
    hh * 3600 + mm * 60 + ss = 86399 /\
    hms_to_secs (secs_to_hms (Some 86399)) = Some 86399.
Proof.
  apply (secs_to_hms_roundtrip 86399). lia.
Defined.

(** ** Laws of the effect monad *)

Lemma bind_ret_l {A B} (a : A) (k : A -> Eff B) : bind (ret a) k = k a.
Proof. unfold bind, ret. destruct (k a). reflexivity. Qed.

Lemma bind_ret_r {A} (m : Eff A) : bind m ret = m.
Proof.
  destruct m as [t [a|e]]; cbn; [rewrite app_nil_r|]; reflexivity.
Qed.

Lemma bind_assoc {A B C} (m : Eff A) (k : A -> Eff B) (h : B -> Eff C) :
  bind (bind m k) h = bind m (fun a => bind (k a) h).
Proof.
  destruct m as [t [a|e]]; cbn; [|reflexivity].
  destruct (k a) as [t' [b|e]]; cbn; [|reflexivity].
  destruct (h b) as [t'' r]. now rewrite app_assoc.
Qed.

Lemma trace_bind_prefix {A B} (m : Eff A) (k : A -> Eff B) :
  exists t, trace (bind m k) = (trace m ++ t)%list.
Proof.
  destruct m as [t [a|e]]; cbn.
  - destruct (k a) as [t' r]. now exists t'.
  - exists []. now rewrite app_nil_r.
Qed.

(** ** The Telegram channel *)

Lemma truthy_empty (s : string) : Py.truthy s = false <-> s = "".
Proof. destruct s; cbn; split; congruence. Qed.

Lemma send_telegram_message_empty
  (w : world) (bot_token chat_id text : string) :
  Py.truthy bot_token = false \/ Py.truthy chat_id = false ->
  send_telegram_message w bot_token chat_id text = ([], Ret false).
Proof.
  intros [H | H]; unfold send_telegram_message; rewrite H; cbn.
  - reflexivity.
  - now rewrite orb_true_r.
Qed.

(** C3.  With an empty bot token or an empty chat id the call returns
    [False] and emits nothing: no HTTP request is made, whatever the text. *)
Theorem send_telegram_message_needs_credentials
  (w : world) (bot_token chat_id text : string) :
  bot_token = "" \/ chat_id = "" ->
  send_telegram_message w bot_token chat_id text = ([], Ret false).
Proof.
  intros H. apply send_telegram_message_empty.
  destruct H as [-> | ->]; [left | right]; reflexivity.
Qed.

Lemma send_telegram_message_needs_credentials_witness :
  let w := {| sensors_battery := None; clock_check := double_of 100; clock_stamp := double_of 101;
              urlopen_outcome := None; read_outcome := None;
              toast_outcome := None |} in
  send_telegram_message w "" "779" "hello" = ([], Ret false) /\
  send_telegram_message w "token" "" "hello" = ([], Ret false).
Proof.
  split; apply send_telegram_message_needs_credentials;
    [left | right]; reflexivity.
Defined.

Lemma send_telegram_message_ok (w : world) (bot_token chat_id text : string) :
  Py.truthy bot_token = true -> Py.truthy chat_id = true ->
  http_failure w = None ->
  send_telegram_message w bot_token chat_id text
  = ([telegram_request bot_token chat_id text], Ret true).
Proof.
  intros Ht Hc Hf. unfold send_telegram_message, http_failure in *.
  rewrite Ht, Hc. cbn [negb orb].
  destruct (urlopen_outcome w); [discriminate|]. rewrite Hf. reflexivity.
Qed.

Lemma send_telegram_message_caught
  (w : world) (bot_token chat_id text : string) (e : exn) :
  Py.truthy bot_token = true -> Py.truthy chat_id = true ->
  http_failure w = Some e -> is_Exception e = true ->
  send_telegram_message w bot_token chat_id text
  = ([telegram_request bot_token chat_id text; Print (telegram_log_line e)],
     Ret false).
Proof.
  intros Ht Hc Hf He. unfold send_telegram_message, http_failure in *.
  rewrite Ht, Hc. cbn [negb orb]. unfold telegram_log_line.
  destruct (urlopen_outcome w) as [e'|].
  - injection Hf as ->. cbn. rewrite He. destruct (is_HTTPError e); reflexivity.
  - rewrite Hf. cbn. rewrite He. destruct (is_HTTPError e); reflexivity.
Qed.

(** C4.  Provided whatever the HTTP exchange raises is an [Exception]
    (transport errors, HTTP status errors and timeouts all are), the call
    returns a boolean and raises nothing: [True] after the one request when
    the exchange succeeds, [False] after the request and one logged line
    when it raises. *)
Theorem send_telegram_message_never_raises
  (w : world) (bot_token chat_id text : string) :
  (forall e, http_failure w = Some e -> is_Exception e = true) ->
  let r := send_telegram_message w bot_token chat_id text in
  (exists b, snd r = Ret b) /\
  (Py.truthy bot_token = true -> Py.truthy chat_id = true ->
   http_failure w = None ->
   r = ([telegram_request bot_token chat_id text], Ret true)) /\
  (forall e, Py.truthy bot_token = true -> Py.truthy chat_id = true ->
   http_failure w = Some e ->
   r = ([telegram_request bot_token chat_id text; Print (telegram_log_line e)],
        Ret false)).
Proof.
  intros Hexn r. subst r. repeat split.
  - destruct (Py.truthy bot_token) eqn:Ht.
    + destruct (Py.truthy chat_id) eqn:Hc.
      * destruct (http_failure w) as [e|] eqn:Hf.
        -- exists false.
           now rewrite (send_telegram_message_caught w _ _ _ e Ht Hc Hf (Hexn e eq_refl)).
        -- exists true. now rewrite (send_telegram_message_ok w _ _ _ Ht Hc Hf).
      * exists false.
        now rewrite send_telegram_message_empty by (right; exact Hc).
    + exists false.
      now rewrite send_telegram_message_empty by (left; exact Ht).
  - apply send_telegram_message_ok.
  - intros e Ht Hc Hf.
    apply send_telegram_message_caught; auto.
Qed.

Lemma send_telegram_message_never_raises_witness :
  let w := {| sensors_battery := None; clock_check := double_of 100; clock_stamp := double_of 101;
              urlopen_outcome :=
                Some {| exn_cls := HTTPError;
                        exn_str := "HTTP Error 401: Unauthorized" |};
              read_outcome := None; toast_outcome := None |} in
  let r := send_telegram_message w "token" "779" "hello" in
  r = ([telegram_request "token" "779" "hello";
        Print "Telegram HTTP error: HTTP Error 401: Unauthorized"], Ret false) /\
  exists b, snd r = Ret b.
Proof.
  split; [reflexivity|].
  refine (proj1 (send_telegram_message_never_raises _ "token" "779" "hello" _)).
  intros e H. cbn in H. injection H as <-. reflexivity.
Defined.

(** An exception that is not an [Exception] is not caught. *)
Example send_telegram_message_interrupt :
  let w := {| sensors_battery := None; clock_check := double_of 100; clock_stamp := double_of 101;
              urlopen_outcome :=
                Some {| exn_cls := KeyboardInterrupt; exn_str := "" |};
              read_outcome := None; toast_outcome := None |} in
  snd (send_telegram_message w "token" "779" "hello")
  = Raise {| exn_cls := KeyboardInterrupt; exn_str := "" |}.
Proof. reflexivity. Qed.

Lemma Qgtb_spec (x y : Q) : Qgtb x y = true <-> (y < x)%Q.
Proof.
  unfold Qgtb. rewrite negb_true_iff, <- not_true_iff_false, Qle_bool_iff.
  split; [apply Qnot_le_lt | apply Qlt_not_le].
Qed.

(** ** Rounding to a double *)

Section DoubleRounding.

Local Open Scope Q_scope.

Lemma two_pow_pos (e : Z) : 0 < 2 ^ e.
Proof. apply Qpower_0_lt. reflexivity. Qed.

Lemma two_pow_Z (n : Z) : (0 <= n)%Z -> inject_Z (2 ^ n) == 2 ^ n.
Proof. intros Hn. exact (Zpower_Qpower 2 n Hn). Qed.

Lemma two_pow_cancel (e : Z) : 2 ^ e * 2 ^ (- e) == 1.
Proof.
  rewrite <- Qpower_plus by discriminate.
  rewrite Z.add_opp_diag_r. reflexivity.
Qed.

Lemma ilog2_spec (x : Q) :
  0 < x -> 2 ^ Double.ilog2 x <= x /\ x < 2 ^ (Double.ilog2 x + 1).
Proof.
  intros Hx. unfold Double.ilog2.
  destruct (Qle_bool 1 x) eqn:H1.
  - apply Qle_bool_iff in H1.
    pose proof (Qfloor_resp_le _ _ H1) as Hf. change (1 <= Qfloor x)%Z in Hf.
    destruct (Z.log2_spec (Qfloor x) ltac:(lia)) as [Hlo Hhi].
    pose proof (Z.log2_nonneg (Qfloor x)) as Hn.
    split.
    + rewrite <- two_pow_Z by exact Hn.
      apply Qle_trans with (inject_Z (Qfloor x)); [|apply Qfloor_le].
      rewrite <- Zle_Qle. exact Hlo.
    + rewrite <- two_pow_Z by lia.
      apply Qlt_le_trans with (inject_Z (Qfloor x + 1)); [apply Qlt_floor|].
      rewrite <- Zle_Qle. lia.
  - assert (Hlt : x < 1).
    { apply Qnot_le_lt. intros H. apply Qle_bool_iff in H. congruence. }
    assert (Hy : 1 < / x).
    { apply Qlt_shift_inv_l; [exact Hx|]. now rewrite Qmult_1_l. }
    set (c := Qceiling (/ x)).
    pose proof (Qle_ceiling (/ x)) as Hc1. fold c in Hc1.
    pose proof (Qceiling_lt (/ x)) as Hc2. fold c in Hc2.
    assert (Hc : (1 < c)%Z).
    { rewrite Zlt_Qlt. eapply Qlt_le_trans; [exact Hy | exact Hc1]. }
    destruct (Z.log2_up_spec c Hc) as [Hlo Hhi].
    assert (Hu : (0 < Z.log2_up c)%Z) by (apply Z.log2_up_pos; exact Hc).
    set (u := Z.log2_up c) in *.
    assert (Hix : 0 < / x) by (apply Qinv_lt_0_compat; exact Hx).
    split.
    + (* 2^(-u) <= x *)
      rewrite Qpower_opp.
      apply Qle_shift_inv_r; [apply two_pow_pos|].
      (* 1 <= x * 2^u *)
      assert (H : / x <= 2 ^ u).
      { eapply Qle_trans; [exact Hc1|].
        rewrite <- two_pow_Z by lia. rewrite <- Zle_Qle. exact Hhi. }
      apply (Qmult_le_compat_r _ _ x) in H; [|apply Qlt_le_weak; exact Hx].
      rewrite (Qmult_comm (/ x)), Qmult_inv_r in H
        by (intros E; rewrite E in Hx; discriminate Hx).
      now rewrite Qmult_comm.
    + (* x < 2^(-u+1) *)
      replace (- u + 1)%Z with (- (u - 1))%Z by lia.
      rewrite Qpower_opp.
      apply Qlt_shift_inv_l; [apply two_pow_pos|].
      assert (H : 2 ^ (u - 1) < / x).
      { eapply Qle_lt_trans; [|exact Hc2].
        rewrite <- two_pow_Z by lia. rewrite <- Zle_Qle.
        replace (u - 1)%Z with (Z.pred u) by lia. lia. }
      apply (Qmult_lt_compat_r _ _ x Hx) in H.
      rewrite (Qmult_comm (/ x)), Qmult_inv_r in H
        by (intros E; rewrite E in Hx; discriminate Hx).
      now rewrite Qmult_comm.
Qed.

Lemma ilog2_mono (x y : Q) :
  0 < x -> x <= y -> (Double.ilog2 x <= Double.ilog2 y)%Z.
Proof.
  intros Hx Hxy.
  assert (Hy : 0 < y) by (eapply Qlt_le_trans; eauto).
  destruct (ilog2_spec x Hx) as [Hlx _].
  destruct (ilog2_spec y Hy) as [_ Hhy].
  destruct (Z_le_gt_dec (Double.ilog2 x) (Double.ilog2 y)) as [|Hgt]; [assumption|].
  exfalso.
  assert (H : 2 ^ (Double.ilog2 y + 1) <= 2 ^ Double.ilog2 x).
  { apply Qpower_le_compat_l; [lia | discriminate]. }
  apply (Qlt_irrefl y).
  eapply Qlt_le_trans; [exact Hhy|].
  eapply Qle_trans; [exact H|]. eapply Qle_trans; eauto.
Qed.

Lemma round_comp (x y : Q) : x == y -> Py.round x = Py.round y.
Proof.
  intros E. unfold Py.round.
  assert (F : Qfloor x = Qfloor y) by (rewrite E; reflexivity).
  rewrite F.
  assert (C : (x - inject_Z (Qfloor y) ?= 1 # 2) = (y - inject_Z (Qfloor y) ?= 1 # 2))
    by (rewrite E; reflexivity).
  now rewrite C.
Qed.

Lemma ilog2_comp (x y : Q) : x == y -> Double.ilog2 x = Double.ilog2 y.
Proof.
  intros E. unfold Double.ilog2.
  assert (B : Qle_bool 1 x = Qle_bool 1 y) by (rewrite E; reflexivity).
  assert (F : Qfloor x = Qfloor y) by (rewrite E; reflexivity).
  assert (C : Qceiling (/ x) = Qceiling (/ y)) by (rewrite E; reflexivity).
  now rewrite B, F, C.
Qed.

Lemma round_pos_comp (x y : Q) : x == y -> Double.round_pos x == Double.round_pos y.
Proof.
  intros E. unfold Double.round_pos, Double.ulp_exp.
  rewrite (ilog2_comp x y E).
  rewrite (round_comp (x * 2 ^ (- Z.max (Double.ilog2 y - 52) (-1074)))
             (y * 2 ^ (- Z.max (Double.ilog2 y - 52) (-1074)))) by now rewrite E.
  reflexivity.
Qed.

Lemma double_round_comp (x y : Q) : x == y -> Double.round x == Double.round y.
Proof.
  intros E. unfold Double.round. rewrite E.
  destruct (Qcompare y 0); [reflexivity | |].
  - apply Qopp_comp, round_pos_comp. now rewrite E.
  - apply round_pos_comp, E.
Qed.

Lemma round_pos_nonneg (x : Q) : 0 <= x -> 0 <= Double.round_pos x.
Proof.
  intros Hx. unfold Double.round_pos.
  apply Qmult_le_0_compat; [|apply Qlt_le_weak, two_pow_pos].
  change 0 with (inject_Z 0). rewrite <- Zle_Qle.
  change 0%Z with (Py.round 0). apply round_monotone.
  apply Qmult_le_0_compat; [exact Hx | apply Qlt_le_weak, two_pow_pos].
Qed.

(** Scaling by a power of two and back. *)
Lemma scale_le_l (c x : Q) (e : Z) : c * 2 ^ e <= x -> c <= x * 2 ^ (- e).
Proof.
  intros H.
  apply (Qmult_le_compat_r _ _ (2 ^ (- e))) in H;
    [|apply Qlt_le_weak, two_pow_pos].
  now rewrite <- Qmult_assoc, two_pow_cancel, Qmult_1_r in H.
Qed.

Lemma scale_le_r (c x : Q) (e : Z) : x <= c * 2 ^ e -> x * 2 ^ (- e) <= c.
Proof.
  intros H.
  apply (Qmult_le_compat_r _ _ (2 ^ (- e))) in H;
    [|apply Qlt_le_weak, two_pow_pos].
  now rewrite <- (Qmult_assoc c), two_pow_cancel, Qmult_1_r in H.
Qed.

Lemma round_pos_mono (x y : Q) :
  0 < x -> x <= y -> Double.round_pos x <= Double.round_pos y.
Proof.
  intros Hx Hxy.
  assert (Hy : 0 < y) by (eapply Qlt_le_trans; eauto).
  pose proof (ilog2_mono x y Hx Hxy) as HL.
  destruct (ilog2_spec x Hx) as [_ Hxhi].
  destruct (ilog2_spec y Hy) as [Hylo _].
  unfold Double.round_pos.
  set (ex := Double.ulp_exp x). set (ey := Double.ulp_exp y).
  assert (Hexy : (ex <= ey)%Z) by (unfold ex, ey, Double.ulp_exp; lia).
  destruct (Z.eq_dec ex ey) as [E|NE].
  - rewrite <- E. apply Qmult_le_compat_r; [|apply Qlt_le_weak, two_pow_pos].
    rewrite <- Zle_Qle. apply round_monotone.
    apply Qmult_le_compat_r; [exact Hxy | apply Qlt_le_weak, two_pow_pos].
  - (* different binades: a power of two lies between the two results *)
    apply Qle_trans with (2 ^ (ex + 53)).
    + (* the mantissa of x is at most 2^53 *)
      rewrite Qpower_plus by discriminate. rewrite (Qmult_comm (2 ^ ex)).
      apply Qmult_le_compat_r; [|apply Qlt_le_weak, two_pow_pos].
      rewrite <- (two_pow_Z 53) by lia. rewrite <- Zle_Qle.
      apply Z.le_trans with (Py.round (inject_Z (2 ^ 53)));
        [|rewrite (round_integer _ (2 ^ 53)) by reflexivity; lia].
      apply round_monotone. apply scale_le_r.
      rewrite (two_pow_Z 53) by lia. rewrite <- Qpower_plus by discriminate.
      apply Qlt_le_weak. eapply Qlt_le_trans; [exact Hxhi|].
      apply Qpower_le_compat_l; [|discriminate].
      unfold ex, Double.ulp_exp. lia.
    + apply Qle_trans with (2 ^ (52 + ey)).
      * apply Qpower_le_compat_l; [lia | discriminate].
      * rewrite Qpower_plus by discriminate.
        apply Qmult_le_compat_r; [|apply Qlt_le_weak, two_pow_pos].
        rewrite <- (two_pow_Z 52) by lia. rewrite <- Zle_Qle.
        apply Z.le_trans with (Py.round (inject_Z (2 ^ 52)));
          [rewrite (round_integer _ (2 ^ 52)) by reflexivity; lia|].
        apply round_monotone. apply scale_le_l.
        rewrite (two_pow_Z 52) by lia. rewrite <- Qpower_plus by discriminate.
        eapply Qle_trans; [|exact Hylo].
        apply Qpower_le_compat_l; [|discriminate].
        unfold ex, ey, Double.ulp_exp in *. lia.
Qed.

Lemma double_round_mono (x y : Q) : x <= y -> Double.round x <= Double.round y.
Proof.
  intros Hxy. unfold Double.round.
  destruct (Qcompare_spec x 0) as [Ex|Hx|Hx];
    destruct (Qcompare_spec y 0) as [Ey|Hy|Hy].
  - apply Qle_refl.
  - exfalso. lra.
  - apply round_pos_nonneg. lra.
  - pose proof (round_pos_nonneg (- x)). lra.
  - apply Qopp_le_compat, round_pos_mono; lra.
  - pose proof (round_pos_nonneg (- x)). pose proof (round_pos_nonneg y). lra.
  - exfalso. lra.
  - exfalso. lra.
  - apply round_pos_mono; lra.
Qed.

End DoubleRounding.

(** What the guard of the main loop needs of the float subtraction. *)
Lemma double_sub_at_most_10 (a b : double) :
  (a - b <= 10)%Q -> (double_sub a b <= 10)%Q.
Proof.
  intros H. unfold double_sub.
  apply Qle_trans with (Double.round 10);
    [now apply double_round_mono | apply Qle_lteq; right; reflexivity].
Qed.

Lemma double_sub_above_10 (a b : double) :
  (10 < double_sub a b)%Q -> (10 < a - b)%Q.
Proof.
  intros H. apply Qnot_le_lt. intros Hle.
  apply (Qlt_not_le _ _ H). now apply double_sub_at_most_10.
Qed.

(** Subtracting zero is exact. *)
Lemma double_sub_zero (a z : double) : (z == 0)%Q -> (double_sub a z == a)%Q.
Proof.
  intros Hz. unfold double_sub.
  rewrite (double_round_comp (a - z) a) by (rewrite Hz; ring).
  apply Qeq_bool_iff, dval_ok.
Qed.

(** The guard is false at a gap of at most ten seconds. *)
Lemma guard_false_within_10 (a b : double) :
  (a - b <= 10)%Q -> Qgtb (double_sub a b) 10 = false.
Proof.
  intros H. apply not_true_iff_false. rewrite Qgtb_spec.
  apply Qle_not_lt. now apply double_sub_at_most_10.
Qed.

(** ** The main loop *)

Lemma status_eqb_refl (s : status) : status_eqb s s = true.
Proof. destruct s; reflexivity. Qed.

Lemma status_differs_same (s : status) : status_differs s (Some s) = false.
Proof. cbn. now rewrite status_eqb_refl. Qed.


Lemma sends_app (t t' : list event) : sends (t ++ t') = (sends t ++ sends t')%list.
Proof. apply filter_app. Qed.

(** A send made by the first part of a sequence is a send of the whole. *)
Lemma sends_bind_first {A B} (m : Eff A) (k : A -> Eff B) :
  sends (trace m) <> [] -> sends (trace (bind m k)) <> [].
Proof.
  intros H. destruct (trace_bind_prefix m k) as [t ->].
  rewrite sends_app. intros E. apply app_eq_nil in E as [E _]. auto.
Qed.

(** So is a send made by the rest, when the first part returns. *)
Lemma sends_bind_rest {A B} (m : Eff A) (k : A -> Eff B) (t : list event) (a : A) :
  m = (t, Ret a) -> sends (trace (k a)) <> [] -> sends (trace (bind m k)) <> [].
Proof.
  intros -> H. cbn. destruct (k a) as [t' r]. cbn in *.
  rewrite sends_app. intros E. apply app_eq_nil in E as [_ E]. auto.
Qed.

Lemma send_telegram_message_requests
  (w : world) (bot_token chat_id text : string) :
  Py.truthy bot_token = true -> Py.truthy chat_id = true ->
  exists t, trace (send_telegram_message w bot_token chat_id text)
            = telegram_request bot_token chat_id text :: t.
Proof.
  intros Ht Hc. unfold send_telegram_message. rewrite Ht, Hc. cbn [negb orb].
  destruct (urlopen_outcome w) as [e|]; [|destruct (read_outcome w) as [e|]];
    cbn; try (destruct (is_HTTPError e); [|destruct (is_Exception e)]);
    cbn; eexists; reflexivity.
Qed.

Section LoopProperties.

Variables BOT_TOKEN CHAT_ID : string.
Variable HAVE_WIN11TOAST : bool.

Local Abbreviation notify_both := (notify BOT_TOKEN CHAT_ID HAVE_WIN11TOAST).
Local Abbreviation cycle := (main_cycle BOT_TOKEN CHAT_ID HAVE_WIN11TOAST).
Local Abbreviation run := (run_cycles BOT_TOKEN CHAT_ID HAVE_WIN11TOAST).

(** The sample and the message of a cycle whose sensor answered [bat]. *)
Local Abbreviation sample bat := (battery_sample LOW_THRESHOLD HIGH_THRESHOLD bat).

(** A cycle whose guard is false prints its line and sleeps. *)
Lemma main_cycle_quiet (st : loop_state) (w : world) (bat : sbattery) :
  sensors_battery w = Some bat ->
  status_differs (info_status (sample bat)) (last_status st)
  && Qgtb (double_sub (clock_check w) (last_notify st)) 10 = false ->
  cycle st w
  = ([Print (status_message (sample bat)); Sleep POLL_SECONDS],
     Ret {| last_status := Some (info_status (sample bat));
            last_notify := last_notify st |}).
Proof.
  intros Hb Hg. unfold main_cycle, check_battery_level.
  rewrite Hb, bind_ret_l, Hg. reflexivity.
Qed.

(** A cycle whose guard is true runs the notification block. *)
Lemma main_cycle_fires (st : loop_state) (w : world) (bat : sbattery) :
  sensors_battery w = Some bat ->
  status_differs (info_status (sample bat)) (last_status st)
  && Qgtb (double_sub (clock_check w) (last_notify st)) 10 = true ->
  cycle st w
  = (print (status_message (sample bat)) ;;
     stamp <- notify_both w (status_message (sample bat)) ;;
     emit (Sleep POLL_SECONDS) ;;
     ret {| last_status := Some (info_status (sample bat));
            last_notify := stamp |}).
Proof.
  intros Hb Hg. unfold main_cycle, check_battery_level.
  rewrite Hb, bind_ret_l, Hg, !bind_assoc.
  f_equal.
Qed.

Lemma main_cycle_no_battery (st : loop_state) (w : world) :
  sensors_battery w = None ->
  cycle st w
  = ([Print "No battery detected."; Sleep POLL_SECONDS], Ret st).
Proof.
  intros Hb. unfold main_cycle, check_battery_level. rewrite Hb. reflexivity.
Qed.

(** The status a returning cycle with a sample leaves in [last_status]. *)
Lemma main_cycle_last_status
  (st st' : loop_state) (w : world) (bat : sbattery) (t : list event) :
  sensors_battery w = Some bat ->
  cycle st w = (t, Ret st') ->
  last_status st' = Some (info_status (sample bat)).
Proof.
  intros Hb Hrun.
  destruct (status_differs (info_status (sample bat)) (last_status st)
            && Qgtb (double_sub (clock_check w) (last_notify st)) 10) eqn:Hg.
  - rewrite (main_cycle_fires st w bat Hb Hg) in Hrun.
    destruct (notify_both w (status_message (sample bat))) as [tn [q|e]];
      cbn in Hrun; [|discriminate].
    injection Hrun as _ <-. reflexivity.
  - rewrite (main_cycle_quiet st w bat Hb Hg) in Hrun.
    injection Hrun as _ <-. reflexivity.
Qed.

(** C5.  Of two consecutive cycles that classify their samples into the
    same status, the second sends nothing on either channel and leaves
    [last_notify] as it was, whatever the clock says. *)
Theorem same_status_never_resends
  (st st1 : loop_state) (w1 w2 : world) (bat1 bat2 : sbattery)
  (t1 : list event) :
  sensors_battery w1 = Some bat1 ->
  sensors_battery w2 = Some bat2 ->
  info_status (sample bat1) = info_status (sample bat2) ->
  cycle st w1 = (t1, Ret st1) ->
  sends (trace (cycle st1 w2)) = [] /\
  exists st2, snd (cycle st1 w2) = Ret st2 /\
              last_notify st2 = last_notify st1 /\
              last_status st2 = last_status st1.
Proof.
  intros Hb1 Hb2 Hsame Hrun.
  pose proof (main_cycle_last_status st st1 w1 bat1 t1 Hb1 Hrun) as Hlast.
  assert (Hg : status_differs (info_status (sample bat2)) (last_status st1)
               && Qgtb (double_sub (clock_check w2) (last_notify st1)) 10 = false).
  { rewrite Hlast, Hsame, status_differs_same. reflexivity. }
  rewrite (main_cycle_quiet st1 w2 bat2 Hb2 Hg). split; [reflexivity|].
  eexists. split; [reflexivity|]. cbn. split; [reflexivity|].
  now rewrite Hlast, Hsame.
Qed.

(** C6.  On a status change less than ten seconds after the last
    notification, the cycle sends nothing on either channel and leaves
    [last_notify] as it was. *)
Theorem rate_limit_blocks_send
  (st : loop_state) (w : world) (bat : sbattery) :
  sensors_battery w = Some bat ->
  status_differs (info_status (sample bat)) (last_status st) = true ->
  (clock_check w - last_notify st < 10)%Q ->
  sends (trace (cycle st w)) = [] /\
  snd (cycle st w)
  = Ret {| last_status := Some (info_status (sample bat));
           last_notify := last_notify st |}.
Proof.
  intros Hb Hd Hlt.
  assert (Hg : status_differs (info_status (sample bat)) (last_status st)
               && Qgtb (double_sub (clock_check w) (last_notify st)) 10 = false).
  { rewrite Hd. cbn [andb]. apply guard_false_within_10, Qlt_le_weak, Hlt. }
  rewrite (main_cycle_quiet st w bat Hb Hg). split; reflexivity.
Qed.

Lemma send_windows_toast_shows (w : world) (title msg : string) :
  HAVE_WIN11TOAST = true ->
  exists t, trace (send_windows_toast HAVE_WIN11TOAST w title msg)
            = Toast title msg :: t.
Proof.
  intros Hh. unfold send_windows_toast. rewrite Hh.
  destruct (toast_outcome w) as [e|];
    cbn; try destruct (is_Exception e); cbn; eexists; reflexivity.
Qed.

(** With a channel configured, the notification block sends. *)
Lemma notify_sends (w : world) (msg : string) :
  Py.truthy BOT_TOKEN && Py.truthy CHAT_ID || HAVE_WIN11TOAST = true ->
  sends (trace (notify_both w msg)) <> [].
Proof.
  intros Hch. unfold notify.
  destruct (Py.truthy BOT_TOKEN && Py.truthy CHAT_ID) eqn:Hcred.
  - apply andb_prop in Hcred as [Ht Hc].
    do 2 apply sends_bind_first.
    destruct (send_telegram_message_requests w BOT_TOKEN CHAT_ID
                (battery_emoji ++ " " ++ msg) Ht Hc) as [t ->].
    discriminate.
  - cbn [orb] in Hch. rewrite bind_ret_l.
    apply sends_bind_first.
    destruct (send_windows_toast_shows w "Battery Watcher" msg Hch) as [t ->].
    discriminate.
Qed.

(** When the notification block returns, it returns the clock reading. *)
Lemma notify_stamp (w : world) (msg : string) (t : list event) (q : double) :
  notify_both w msg = (t, Ret q) -> q = clock_stamp w.
Proof.
  unfold notify.
  destruct (if Py.truthy BOT_TOKEN && Py.truthy CHAT_ID
            then send_telegram_message w BOT_TOKEN CHAT_ID
                   (battery_emoji ++ " " ++ msg) ;; ret tt
            else ret tt) as [t1 [[]|e1]]; cbn; [|intros H; discriminate H].
  destruct (send_windows_toast HAVE_WIN11TOAST w "Battery Watcher" msg)
    as [t2 [[]|e2]]; cbn; [|intros H; discriminate H].
  intros H. injection H as _ <-. reflexivity.
Qed.

Lemma run_cycles_app (st : loop_state) (ws ws' : list world) :
  run st (ws ++ ws')
  = (st' <- run st ws ;; run st' ws').
Proof.
  revert st. induction ws as [|w ws IH]; intros st; cbn [app run_cycles].
  - now rewrite bind_ret_l.
  - destruct (cycle st w) as [t [st'|e]]; cbn; [|reflexivity].
    rewrite IH.
    destruct (run st' ws) as [t' [st''|e]]; cbn; [|reflexivity].
    destruct (run st'' ws') as [t'' r]. now rewrite app_assoc.
Qed.

Lemma run_cycles_single (st : loop_state) (w : world) :
  run st [w] = cycle st w.
Proof. cbn. apply bind_ret_r. Qed.

(** Cycles without a battery leave the state alone and send nothing. *)
Lemma run_cycles_no_battery (st : loop_state) (ws : list world) :
  Forall (fun w => sensors_battery w = None) ws ->
  exists t, run st ws = (t, Ret st) /\ sends t = [].
Proof.
  induction 1 as [|w ws Hw _ [t [IH Hs]]]; cbn [run_cycles].
  - exists []. split; reflexivity.
  - rewrite (main_cycle_no_battery st w Hw). cbn. rewrite IH.
    eexists. split; [reflexivity|]. exact Hs.
Qed.


(** C8.  A cycle whose sensor reports no battery leaves [last_status] and
    [last_notify] as they were; a cycle that returns with a different
    [last_status] had a sample. *)
Theorem no_sample_keeps_state (st : loop_state) (w : world) :
  (sensors_battery w = None ->
   cycle st w
   = ([Print "No battery detected."; Sleep POLL_SECONDS], Ret st)) /\
  (forall t st', cycle st w = (t, Ret st') ->
                 last_status st' <> last_status st ->
                 exists bat, sensors_battery w = Some bat).
Proof.
  split.
  - apply main_cycle_no_battery.
  - intros t st' Hrun Hneq.
    destruct (sensors_battery w) as [bat|] eqn:Hb; [now exists bat|].
    rewrite (main_cycle_no_battery st w Hb) in Hrun.
    injection Hrun as _ <-. contradiction.
Qed.

End LoopProperties.

(** ** The loop on sample worlds *)

Example main_first_cycle :
  main "TOKEN" "779" true [calm_world (Some (reading 15 false)) 1730000000]
  = ([Print "Battery Watcher started...";
      Print "Battery LOW — 15% (plugged: False) — 1:01:01";
      telegram_request "TOKEN" "779"
        "🔋 Battery LOW — 15% (plugged: False) — 1:01:01";
      Toast "Battery Watcher" "Battery LOW — 15% (plugged: False) — 1:01:01";
      Sleep 60],
     Ret {| last_status := Some low; last_notify := double_of 1730000000 |}).
Proof. reflexivity. Qed.

(** Exactly ten seconds after the last notification is still too early; a
    later reading is not. *)
Example ten_seconds_boundary :
  let st := {| last_status := Some normal; last_notify := double_of 1000 |} in
  let cycle_at (t : Q) :=
    main_cycle "TOKEN" "779" true st (calm_world (Some (reading 15 false)) t) in
  sends (trace (cycle_at 1010%Q)) = [] /\
  List.length (sends (trace (cycle_at (2021 # 2)%Q))) = 2%nat.
Proof. split; reflexivity. Qed.

(** The gap is the rounded one: from a last notification at 3 * 2^-51 a
    clock reading of 10 + 2^-49 is more than ten seconds later, but the
    doubles subtract to 10.0 and nothing is sent. *)
Example rounded_gap_is_what_counts :
  let last := double_of (3 # 2 ^ 51) in
  let now := (10 + (1 # 2 ^ 49))%Q in
  let st := {| last_status := Some normal; last_notify := last |} in
  (10 < double_of now - last)%Q /\
  (double_sub (double_of now) last == 10)%Q /\
  sends (trace (main_cycle "TOKEN" "779" true st
                  (calm_world (Some (reading 15 false)) now))) = [].
Proof. repeat split; reflexivity. Qed.

Lemma same_status_never_resends_witness :
  let st1 := {| last_status := Some low; last_notify := double_of 1730000000 |} in
  let second :=
    main_cycle "TOKEN" "779" true st1
      (calm_world (Some (reading 14 false)) 1730000060) in
  sends (trace second) = [] /\
  exists st2, snd second = Ret st2 /\
              last_notify st2 = last_notify st1 /\
              last_status st2 = last_status st1.
Proof.
  apply (same_status_never_resends "TOKEN" "779" true initial_state
           {| last_status := Some low; last_notify := double_of 1730000000 |}
           (calm_world (Some (reading 15 false)) 1730000000)
           (calm_world (Some (reading 14 false)) 1730000060)
           (reading 15 false) (reading 14 false)
           [Print "Battery LOW — 15% (plugged: False) — 1:01:01";
            telegram_request "TOKEN" "779"
              "🔋 Battery LOW — 15% (plugged: False) — 1:01:01";
            Toast "Battery Watcher"
              "Battery LOW — 15% (plugged: False) — 1:01:01";
            Sleep 60]); reflexivity.
Defined.

Lemma rate_limit_blocks_send_witness :
  let st := {| last_status := Some normal; last_notify := double_of 1000 |} in
  let w := calm_world (Some (reading 15 false)) 1005 in
  sends (trace (main_cycle "TOKEN" "779" true st w)) = [] /\
  snd (main_cycle "TOKEN" "779" true st w)
  = Ret {| last_status := Some low; last_notify := double_of 1000 |}.
Proof.
  apply (rate_limit_blocks_send "TOKEN" "779" true
           {| last_status := Some normal; last_notify := double_of 1000 |}
           (calm_world (Some (reading 15 false)) 1005) (reading 15 false));
    reflexivity.
Defined.



(** * Further properties of the script *)

(** ** [secs_to_hms] outside the range 0..604800 *)

Lemma format_d_head (z : Z) :
  exists c rest, Py.format_d z = String c rest /\
                 (c = "-"%char \/ is_digit c = true).
Proof.
  unfold Py.format_d. destruct (z <? 0).
  - eexists _, _. split; [reflexivity | now left].
  - unfold Py.digits, NilZero.string_of_uint.
    destruct (N.to_uint (Z.abs_N z)); cbn;
      eexists _, _; (split; [reflexivity | now right]).
Qed.

(** The text of every value that is neither a sentinel nor above a week. *)
Lemma secs_to_hms_formatted (secs : Z) :
  secs <> POWER_TIME_UNKNOWN -> secs <> POWER_TIME_UNLIMITED ->
  secs <= 604800 ->
  secs_to_hms (Some secs)
  = Py.format_d (secs / 60 / 60) ++ ":" ++ two_digits ((secs / 60) mod 60)
    ++ ":" ++ two_digits (secs mod 60).
Proof.
  intros H1 H2 Hle. unfold secs_to_hms, Py.divmod.
  destruct (Z.eqb_spec secs POWER_TIME_UNKNOWN); [contradiction|].
  destruct (Z.eqb_spec secs POWER_TIME_UNLIMITED); [contradiction|].
  cbn [orb].
  destruct (Z.gtb_spec secs (60 * 60 * 24 * 7)); [lia|].
  pose proof (Z.mod_pos_bound secs 60 ltac:(lia)).
  pose proof (Z.mod_pos_bound (secs / 60) 60 ltac:(lia)).
  rewrite !format_02d_two_digits by lia. reflexivity.
Qed.

Lemma formatted_not_word (z : Z) (tail word : string) (c : ascii) :
  is_digit c = false -> c <> "-"%char ->
  Py.format_d z ++ tail <> String c word.
Proof.
  intros Hd Hm E.
  destruct (format_d_head z) as (c' & rest & Hf & Hc).
  rewrite Hf in E. cbn in E. injection E as -> _.
  destruct Hc as [-> | Hc]; congruence.
Qed.

(** X1.  The text tells the three cases apart: it is "unknown" exactly for
    a missing value and the two sentinels, and "no driver estimate" exactly
    for values above 604800. *)
Theorem secs_to_hms_text_classes (secs : option Z) :
  (secs_to_hms secs = "unknown" <->
   secs = None \/ secs = Some POWER_TIME_UNKNOWN
   \/ secs = Some POWER_TIME_UNLIMITED) /\
  (secs_to_hms secs = "no driver estimate" <->
   exists n, secs = Some n /\ n > 604800).
Proof.
  destruct secs as [n|].
  2:{ split; split; intros H; try discriminate; auto.
      destruct H as (n & H & _). discriminate. }
  destruct (Z.eq_dec n POWER_TIME_UNKNOWN) as [->|N1].
  { split; split; intros H; try discriminate; auto.
    destruct H as (n & [= <-] & Hn). unfold POWER_TIME_UNKNOWN in Hn. lia. }
  destruct (Z.eq_dec n POWER_TIME_UNLIMITED) as [->|N2].
  { split; split; intros H; try discriminate; auto.
    destruct H as (n & [= <-] & Hn). unfold POWER_TIME_UNLIMITED in Hn. lia. }
  destruct (Z_le_gt_dec n 604800) as [Hle|Hgt].
  - rewrite (secs_to_hms_formatted n N1 N2 Hle).
    split; split; intros H.
    + exfalso. revert H. apply formatted_not_word; [reflexivity | discriminate].
    + destruct H as [H | [H | H]]; congruence.
    + exfalso. revert H. apply formatted_not_word; [reflexivity | discriminate].
    + destruct H as (m & [= <-] & Hm). lia.
  - assert (E : secs_to_hms (Some n) = "no driver estimate").
    { unfold secs_to_hms.
      destruct (Z.eqb_spec n POWER_TIME_UNKNOWN); [contradiction|].
      destruct (Z.eqb_spec n POWER_TIME_UNLIMITED); [contradiction|].
      cbn [orb]. destruct (Z.gtb_spec n (60 * 60 * 24 * 7)); [reflexivity | lia]. }
    rewrite E. split; split; intros H; try discriminate; try reflexivity.
    + destruct H as [H | [H | H]]; congruence.
    + exists n. split; [reflexivity | exact Hgt].
Qed.

(** X2.  A negative value below the sentinels is formatted all the same:
    the hours are negative, the text starts with a minus sign, and minutes
    and seconds are two digits in 0..59 that count upwards from the hour
    below, so that H*3600 + MM*60 + SS is still [secs]. *)
Theorem secs_to_hms_negative_duration (secs : Z) :
  secs < POWER_TIME_UNLIMITED ->
  exists hh mm ss rest,
    secs_to_hms (Some secs)
    = Py.format_d hh ++ ":" ++ two_digits mm ++ ":" ++ two_digits ss /\
    secs_to_hms (Some secs) = String "-" rest /\
    hh < 0 /\ 0 <= mm < 60 /\ 0 <= ss < 60 /\
    hh * 3600 + mm * 60 + ss = secs.
Proof.
  unfold POWER_TIME_UNLIMITED. intros Hs.
  pose proof (Z.div_mod secs 60 ltac:(lia)) as E1.
  pose proof (Z.div_mod (secs / 60) 60 ltac:(lia)) as E2.
  pose proof (Z.mod_pos_bound secs 60 ltac:(lia)) as B1.
  pose proof (Z.mod_pos_bound (secs / 60) 60 ltac:(lia)) as B2.
  assert (Hh : secs / 60 / 60 < 0) by lia.
  rewrite secs_to_hms_formatted
    by (unfold POWER_TIME_UNKNOWN, POWER_TIME_UNLIMITED; lia).
  exists (secs / 60 / 60), ((secs / 60) mod 60), (secs mod 60),
    (Py.digits (Z.abs_N (secs / 60 / 60)) ++ ":"
     ++ two_digits ((secs / 60) mod 60) ++ ":" ++ two_digits (secs mod 60)).
  split; [reflexivity|]. split; [|lia].
  unfold Py.format_d. destruct (Z.ltb_spec (secs / 60 / 60) 0); [reflexivity | lia].
Qed.

Lemma secs_to_hms_negative_duration_witness :
  secs_to_hms (Some (-3)) = "-1:59:57" /\
  exists hh mm ss rest,
    secs_to_hms (Some (-3))
    = Py.format_d hh ++ ":" ++ two_digits mm ++ ":" ++ two_digits ss /\
    secs_to_hms (Some (-3)) = String "-" rest /\
    hh < 0 /\ 0 <= mm < 60 /\ 0 <= ss < 60 /\
    hh * 3600 + mm * 60 + ss = -3.
Proof.
  split; [reflexivity|].
  apply (secs_to_hms_negative_duration (-3)). reflexivity.
Defined.

(** ** Distinct durations, distinct texts *)

Lemma digits_inj (n m : N) : Py.digits n = Py.digits m -> n = m.
Proof.
  intros E. apply (f_equal parse_nat) in E.
  rewrite !parse_nat_digits in E. injection E as E. lia.
Qed.

Lemma two_digits_inj (m m' : Z) :
  0 <= m < 100 -> 0 <= m' < 100 -> two_digits m = two_digits m' -> m = m'.
Proof.
  intros Hm Hm' E. apply (f_equal parse_nat) in E.
  rewrite (proj2 (two_digits_read m Hm)), (proj2 (two_digits_read m' Hm')) in E.
  now injection E.
Qed.

Lemma fields_inj (d m s d' m' s' : string) :
  all_digits d = true -> all_digits m = true -> all_digits s = true ->
  all_digits d' = true -> all_digits m' = true -> all_digits s' = true ->
  d ++ String ":" (m ++ String ":" s) = d' ++ String ":" (m' ++ String ":" s') ->
  d = d' /\ m = m' /\ s = s'.
Proof.
  intros Hd Hm Hs Hd' Hm' Hs' E. apply (f_equal split_colon) in E.
  rewrite !split_colon_field, !split_colon_last in E by assumption.
  injection E as -> -> ->. auto.
Qed.

(** Texts of the shape [secs_to_hms] builds agree only on equal fields. *)
Lemma hms_text_inj (h h' m m' s s' : Z) :
  0 <= m < 60 -> 0 <= m' < 60 -> 0 <= s < 60 -> 0 <= s' < 60 ->
  Py.format_d h ++ ":" ++ two_digits m ++ ":" ++ two_digits s
  = Py.format_d h' ++ ":" ++ two_digits m' ++ ":" ++ two_digits s' ->
  h = h' /\ m = m' /\ s = s'.
Proof.
  intros Hm Hm' Hs Hs' E.
  destruct (two_digits_read m ltac:(lia)) as [Dm _].
  destruct (two_digits_read m' ltac:(lia)) as [Dm' _].
  destruct (two_digits_read s ltac:(lia)) as [Ds _].
  destruct (two_digits_read s' ltac:(lia)) as [Ds' _].
  assert (Hfields : forall n n' : N,
             Py.digits n ++ String ":" (two_digits m ++ String ":" (two_digits s))
             = Py.digits n' ++ String ":" (two_digits m' ++ String ":" (two_digits s')) ->
             n = n' /\ m = m' /\ s = s').
  { intros n n' En.
    apply fields_inj in En; auto using digits_all_digits.
    destruct En as (En & Em & Es).
    repeat split; [now apply digits_inj | apply two_digits_inj; auto; lia
                  | apply two_digits_inj; auto; lia]. }
  unfold Py.format_d in E.
  destruct (Z.ltb_spec h 0) as [Hh|Hh], (Z.ltb_spec h' 0) as [Hh'|Hh'].
  - cbn [append] in E. injection E as E. apply Hfields in E as (En & -> & ->).
    repeat split. lia.
  - exfalso. pose proof (digits_all_digits (Z.abs_N h')) as Hd.
    destruct (Py.digits (Z.abs_N h')) as [|c r]; cbn [append] in E; [discriminate E|].
    injection E as <- _. discriminate Hd.
  - exfalso. pose proof (digits_all_digits (Z.abs_N h)) as Hd.
    destruct (Py.digits (Z.abs_N h)) as [|c r]; cbn [append] in E; [discriminate E|].
    injection E as -> _. discriminate Hd.
  - cbn [append] in E. apply Hfields in E as (En & -> & ->). repeat split. lia.
Qed.

(** X3.  On the values it formats (at most 604800 and not a sentinel,
    negative ones included) [secs_to_hms] is injective: two different
    numbers of seconds never get the same text. *)
Theorem secs_to_hms_injective (a b : Z) :
  a <= 604800 -> b <= 604800 ->
  a <> POWER_TIME_UNKNOWN -> a <> POWER_TIME_UNLIMITED ->
  b <> POWER_TIME_UNKNOWN -> b <> POWER_TIME_UNLIMITED ->
  a <> b ->
  secs_to_hms (Some a) <> secs_to_hms (Some b).
Proof.
  intros Ha Hb A1 A2 B1 B2 Hab E. apply Hab.
  rewrite (secs_to_hms_formatted a A1 A2 Ha),
    (secs_to_hms_formatted b B1 B2 Hb) in E.
  pose proof (Z.mod_pos_bound a 60 ltac:(lia)).
  pose proof (Z.mod_pos_bound (a / 60) 60 ltac:(lia)).
  pose proof (Z.mod_pos_bound b 60 ltac:(lia)).
  pose proof (Z.mod_pos_bound (b / 60) 60 ltac:(lia)).
  apply hms_text_inj in E as (Eh & Em & Es); try assumption.
  pose proof (Z.div_mod a 60 ltac:(lia)).
  pose proof (Z.div_mod (a / 60) 60 ltac:(lia)).
  pose proof (Z.div_mod b 60 ltac:(lia)).
  pose proof (Z.div_mod (b / 60) 60 ltac:(lia)).
  lia.
Qed.

Lemma secs_to_hms_injective_witness :
  secs_to_hms (Some 59) <> secs_to_hms (Some (-3541)).
Proof.
  apply (secs_to_hms_injective 59 (-3541));
    unfold POWER_TIME_UNKNOWN, POWER_TIME_UNLIMITED; lia.
Defined.

(** ** The sample record *)

(** X4.  A sensor that cannot tell whether the charger is connected
    ([power_plugged] is [None]) is treated as unplugged: the plugged flag
    is false, the status is never high however full the battery, and it is
    low exactly when the rounded percent is at most the low threshold. *)
Theorem undetermined_plug_counts_as_unplugged
  (low_threshold high_threshold : Z) (bat : sbattery) :
  power_plugged bat = None ->
  let info := battery_sample low_threshold high_threshold bat in
  info_plugged info = false /\
  info_status info <> high /\
  (info_status info = low <-> info_percent info <= low_threshold) /\
  (info_status info = normal <-> info_percent info > low_threshold).
Proof.
  intros Hp. unfold battery_sample. rewrite Hp. cbn.
  destruct (Z.leb_spec (Py.round (percent bat)) low_threshold);
    repeat split; intros; try discriminate; try reflexivity; try lia.
Qed.

Lemma undetermined_plug_counts_as_unplugged_witness :
  let info := battery_sample 20 85
                {| percent := 100; secsleft := None; power_plugged := None |} in
  info_plugged info = false /\
  info_status info <> high /\
  (info_status info = low <-> info_percent info <= 20) /\
  (info_status info = normal <-> info_percent info > 20).
Proof.
  apply (undetermined_plug_counts_as_unplugged 20 85
           {| percent := 100; secsleft := None; power_plugged := None |}).
  reflexivity.
Defined.

(** X5.  Rounding changes nothing on whole numbers and keeps the order: a
    sensor percent that is an integer is the percent field itself, and of
    two readings the larger never gets the smaller percent field. *)
Theorem percent_field_exact_and_monotone
  (low_threshold high_threshold : Z) (bat bat' : sbattery) :
  (forall n : Z, (percent bat == inject_Z n)%Q ->
     info_percent (battery_sample low_threshold high_threshold bat) = n) /\
  ((percent bat <= percent bat')%Q ->
   info_percent (battery_sample low_threshold high_threshold bat)
   <= info_percent (battery_sample low_threshold high_threshold bat')).
Proof.
  split; cbn.
  - intros n. apply round_integer.
  - apply round_monotone.
Qed.

(** X6.  The status only depends on the reading through its rounded
    percent and its plug state, and moves one way with the percent: on
    battery, a reading no higher than a low one is low; on the charger, a
    reading no lower than a high one is high. *)
Theorem status_monotone_in_percent
  (low_threshold high_threshold : Z) (bat bat' : sbattery) :
  power_plugged bat = power_plugged bat' ->
  (percent bat' <= percent bat)%Q ->
  (info_status (battery_sample low_threshold high_threshold bat) = low ->
   info_status (battery_sample low_threshold high_threshold bat') = low) /\
  (info_status (battery_sample low_threshold high_threshold bat') = high ->
   info_status (battery_sample low_threshold high_threshold bat) = high).
Proof.
  intros Hp Hle. pose proof (round_monotone _ _ Hle) as Hr.
  unfold battery_sample; cbn. rewrite <- Hp.
  destruct (bool_of_plugged (power_plugged bat)); cbn;
    destruct (Z.leb_spec (Py.round (percent bat)) low_threshold);
    destruct (Z.leb_spec (Py.round (percent bat')) low_threshold);
    destruct (Z.geb_spec (Py.round (percent bat)) high_threshold);
    destruct (Z.geb_spec (Py.round (percent bat')) high_threshold);
    split; intros; try reflexivity; try discriminate; lia.
Qed.

Lemma status_monotone_in_percent_witness :
  let b p := {| percent := p; secsleft := None; power_plugged := Some false |} in
  (info_status (battery_sample 20 85 (b (41 # 2))) = low ->
   info_status (battery_sample 20 85 (b (39 # 2))) = low) /\
  (info_status (battery_sample 20 85 (b (39 # 2))) = high ->
   info_status (battery_sample 20 85 (b (41 # 2))) = high).
Proof.
  apply (status_monotone_in_percent 20 85
           {| percent := 41 # 2; secsleft := None; power_plugged := Some false |}
           {| percent := 39 # 2; secsleft := None; power_plugged := Some false |}).
  - reflexivity.
  - cbn. discriminate.
Defined.

(** ** The two channels taken alone *)

Lemma trace_bind {A B} (m : Eff A) (k : A -> Eff B) :
  trace (bind m k)
  = (trace m ++ match snd m with
                | Ret a => trace (k a)
                | Raise _ => []
                end)%list.
Proof.
  destruct m as [t [a|e]]; cbn.
  - now destruct (k a).
  - now rewrite app_nil_r.
Qed.

Lemma bind_ret_inv {A B} (m : Eff A) (k : A -> Eff B) (t : list event) (b : B) :
  bind m k = (t, Ret b) ->
  exists t1 a t2, m = (t1, Ret a) /\ k a = (t2, Ret b) /\ t = (t1 ++ t2)%list.
Proof.
  destruct m as [t1 [a|e]]; cbn; [|intros H; discriminate H].
  destruct (k a) as [t2 r] eqn:Hk. intros H. injection H as <- ->.
  now exists t1, a, t2.
Qed.

Lemma not_Exception_not_HTTPError (e : exn) :
  is_Exception e = false -> is_HTTPError e = false.
Proof. unfold is_Exception, is_HTTPError. now destruct (exn_cls e). Qed.

(** X7.  One call makes at most one request and never retries: whatever
    the network answers, the sends of the call are the single request when
    both credentials are set, and nothing otherwise. *)
Theorem send_telegram_message_single_request
  (w : world) (bot_token chat_id text : string) :
  sends (trace (send_telegram_message w bot_token chat_id text))
  = if Py.truthy bot_token && Py.truthy chat_id
    then [telegram_request bot_token chat_id text]
    else [].
Proof.
  unfold send_telegram_message.
  destruct (Py.truthy bot_token); [destruct (Py.truthy chat_id)|];
    cbn [negb orb andb]; try reflexivity.
  destruct (urlopen_outcome w) as [e|]; [|destruct (read_outcome w) as [e|]];
    cbn; try (destruct (is_HTTPError e); [|destruct (is_Exception e)]);
    reflexivity.
Qed.

Lemma send_telegram_message_uncaught
  (w : world) (bot_token chat_id text : string) (e : exn) :
  Py.truthy bot_token = true -> Py.truthy chat_id = true ->
  http_failure w = Some e -> is_Exception e = false ->
  send_telegram_message w bot_token chat_id text
  = ([telegram_request bot_token chat_id text], Raise e).
Proof.
  intros Ht Hc Hf He.
  pose proof (not_Exception_not_HTTPError e He) as Hh.
  unfold send_telegram_message, http_failure in *.
  rewrite Ht, Hc. cbn [negb orb].
  destruct (urlopen_outcome w) as [e'|].
  - injection Hf as ->. cbn. now rewrite Hh, He.
  - rewrite Hf. cbn. now rewrite Hh, He.
Qed.

(** X8.  What is not an [Exception] is not swallowed: with credentials
    set, an interrupt raised during the exchange leaves the call as it is,
    after the request and without a logged line. *)
Theorem send_telegram_message_propagates
  (w : world) (bot_token chat_id text : string) (e : exn) :
  Py.truthy bot_token = true -> Py.truthy chat_id = true ->
  http_failure w = Some e -> is_Exception e = false ->
  send_telegram_message w bot_token chat_id text
  = ([telegram_request bot_token chat_id text], Raise e).
Proof. apply send_telegram_message_uncaught. Qed.

Lemma send_telegram_message_propagates_witness :
  let stop := {| exn_cls := KeyboardInterrupt; exn_str := "" |} in
  let w := {| sensors_battery := None; clock_check := double_of 100; clock_stamp := double_of 101;
              urlopen_outcome := None; read_outcome := Some stop;
              toast_outcome := None |} in
  send_telegram_message w "TOKEN" "779" "hello"
  = ([telegram_request "TOKEN" "779" "hello"], Raise stop).
Proof.
  apply send_telegram_message_propagates; reflexivity.
Defined.

Lemma send_windows_toast_result
  (have_toast : bool) (w : world) (title msg : string) :
  outcome_ok (toast_outcome w) = true ->
  send_windows_toast have_toast w title msg
  = (if have_toast
     then Toast title msg
          :: match toast_outcome w with
             | Some e => [Print ("Toast failed:" ++ " " ++ exn_str e)]
             | None => []
             end
     else [], Ret tt).
Proof.
  intros Hok. unfold send_windows_toast. destruct have_toast; [|reflexivity].
  destruct (toast_outcome w) as [e|]; cbn in *; [rewrite Hok|]; reflexivity.
Qed.

(** X9.  The toast channel is optional and contained: without the
    facility the call does nothing at all; with it the toast is shown
    once, and a failure that is an [Exception] costs one logged line and
    is not raised. *)
Theorem send_windows_toast_contained
  (have_toast : bool) (w : world) (title msg : string) :
  outcome_ok (toast_outcome w) = true ->
  send_windows_toast have_toast w title msg
  = (if have_toast
     then Toast title msg
          :: match toast_outcome w with
             | Some e => [Print ("Toast failed:" ++ " " ++ exn_str e)]
             | None => []
             end
     else [], Ret tt).
Proof. apply send_windows_toast_result. Qed.

Lemma send_windows_toast_contained_witness :
  let w := {| sensors_battery := None; clock_check := double_of 100; clock_stamp := double_of 101;
              urlopen_outcome := None; read_outcome := None;
              toast_outcome := Some {| exn_cls := OtherException;
                                       exn_str := "no notifier" |} |} in
  send_windows_toast true w "Battery Watcher" "hello"
  = ([Toast "Battery Watcher" "hello"; Print "Toast failed: no notifier"],
     Ret tt) /\
  send_windows_toast false w "Battery Watcher" "hello" = ([], Ret tt).
Proof.
  split;
    refine (send_windows_toast_contained _ _ "Battery Watcher" "hello" _);
    reflexivity.
Defined.

(** ** Cycles and runs *)

Lemma status_differs_true (s : status) (last : option status) :
  status_differs s last = true <-> last <> Some s.
Proof.
  destruct last as [s'|]; cbn; [|split; [discriminate | reflexivity]].
  destruct s, s'; cbn; split; congruence.
Qed.

Lemma telegram_no_sleep (w : world) (bot_token chat_id text : string) :
  filter is_sleep (trace (send_telegram_message w bot_token chat_id text)) = [].
Proof.
  unfold send_telegram_message.
  destruct (negb (Py.truthy bot_token) || negb (Py.truthy chat_id));
    [reflexivity|].
  destruct (urlopen_outcome w) as [e|]; [|destruct (read_outcome w) as [e|]];
    cbn; try (destruct (is_HTTPError e); [|destruct (is_Exception e)]);
    reflexivity.
Qed.

Lemma toast_no_sleep (have_toast : bool) (w : world) (title msg : string) :
  filter is_sleep (trace (send_windows_toast have_toast w title msg)) = [].
Proof.
  unfold send_windows_toast. destruct have_toast; [|reflexivity].
  destruct (toast_outcome w) as [e|]; cbn; try destruct (is_Exception e);
    reflexivity.
Qed.

Lemma no_sleep_bind {A B} (m : Eff A) (k : A -> Eff B) :
  filter is_sleep (trace m) = [] ->
  (forall a, filter is_sleep (trace (k a)) = []) ->
  filter is_sleep (trace (bind m k)) = [].
Proof.
  intros Hm Hk. rewrite trace_bind, filter_app, Hm.
  destruct (snd m); [apply Hk | reflexivity].
Qed.

Section LoopExtras.

Variables BOT_TOKEN CHAT_ID : string.
Variable HAVE_WIN11TOAST : bool.

Local Abbreviation notify_both := (notify BOT_TOKEN CHAT_ID HAVE_WIN11TOAST).
Local Abbreviation cycle := (main_cycle BOT_TOKEN CHAT_ID HAVE_WIN11TOAST).
Local Abbreviation run := (run_cycles BOT_TOKEN CHAT_ID HAVE_WIN11TOAST).
Local Abbreviation sample bat := (battery_sample LOW_THRESHOLD HIGH_THRESHOLD bat).
Local Abbreviation both_sends := (expected_sends BOT_TOKEN CHAT_ID HAVE_WIN11TOAST).

Lemma notify_no_sleep (w : world) (msg : string) :
  filter is_sleep (trace (notify_both w msg)) = [].
Proof.
  unfold notify. apply no_sleep_bind.
  - destruct (Py.truthy BOT_TOKEN && Py.truthy CHAT_ID); [|reflexivity].
    apply no_sleep_bind; [apply telegram_no_sleep | reflexivity].
  - intros _. apply no_sleep_bind; [apply toast_no_sleep | reflexivity].
Qed.

(** In a benign world the notification block returns the new timestamp
    after the sends of both channels. *)
Lemma notify_benign (w : world) (msg : string) :
  benign w = true ->
  exists t, notify_both w msg = (t, Ret (clock_stamp w)) /\
            sends t = both_sends msg.
Proof.
  unfold benign. intros Hb. apply andb_prop in Hb as [Hh Ht].
  unfold notify, expected_sends.
  rewrite (send_windows_toast_result HAVE_WIN11TOAST w "Battery Watcher" msg Ht).
  destruct (Py.truthy BOT_TOKEN && Py.truthy CHAT_ID) eqn:Hcred.
  - apply andb_prop in Hcred as [Hb Hc].
    destruct (http_failure w) as [e|] eqn:Hf.
    + rewrite (send_telegram_message_caught w _ _ _ e Hb Hc Hf Hh).
      eexists. split; [reflexivity|].
      destruct HAVE_WIN11TOAST; destruct (toast_outcome w); reflexivity.
    + rewrite (send_telegram_message_ok w _ _ _ Hb Hc Hf).
      eexists. split; [reflexivity|].
      destruct HAVE_WIN11TOAST; destruct (toast_outcome w); reflexivity.
  - eexists. split; [reflexivity|].
    destruct HAVE_WIN11TOAST; destruct (toast_outcome w); reflexivity.
Qed.


(** X11.  A cycle sends only on a change after the gap: whenever its
    trace has a send, the sensor gave a sample, the sample's status is not
    the stored one, and more than ten seconds separate the clock from the
    last notification. *)
Theorem send_requires_change_and_gap (st : loop_state) (w : world) :
  sends (trace (cycle st w)) <> [] ->
  exists bat,
    sensors_battery w = Some bat /\
    last_status st <> Some (info_status (sample bat)) /\
    (10 < clock_check w - last_notify st)%Q.
Proof.
  intros Hs.
  destruct (sensors_battery w) as [bat|] eqn:Hb.
  - exists bat. split; [reflexivity|].
    destruct (status_differs (info_status (sample bat)) (last_status st)
              && Qgtb (double_sub (clock_check w) (last_notify st)) 10) eqn:Hg.
    + apply andb_prop in Hg as [Hd Hq].
      split; [now apply status_differs_true|].
      now apply double_sub_above_10, Qgtb_spec.
    + exfalso. apply Hs.
      now rewrite (main_cycle_quiet _ _ _ st w bat Hb Hg).
  - exfalso. apply Hs. now rewrite (main_cycle_no_battery _ _ _ st w Hb).
Qed.

(** What a returning cycle leaves behind. *)
Lemma cycle_returns_inv (st st' : loop_state) (w : world) (t : list event) :
  cycle st w = (t, Ret st') ->
  filter is_sleep t = [Sleep POLL_SECONDS] /\
  last_status st' = match sample_status w with
                    | Some s => Some s
                    | None => last_status st
                    end /\
  (last_notify st' = last_notify st \/ last_notify st' = clock_stamp w).
Proof.
  intros Hrun. unfold sample_status.
  destruct (sensors_battery w) as [bat|] eqn:Hb.
  - destruct (status_differs (info_status (sample bat)) (last_status st)
              && Qgtb (double_sub (clock_check w) (last_notify st)) 10) eqn:Hg.
    + rewrite (main_cycle_fires _ _ _ st w bat Hb Hg) in Hrun.
      remember (status_message (sample bat)) as msg eqn:Hmsg.
      pose proof (notify_no_sleep w msg) as Hns.
      destruct (notify_both w msg) as [tn [q|e]] eqn:Hn;
        cbn in Hrun; [|discriminate Hrun].
      injection Hrun as <- <-. cbn [trace fst] in Hns.
      cbn [filter is_sleep]. rewrite filter_app, Hns.
      repeat split. right. cbn.
      exact (notify_stamp _ _ _ w msg tn q Hn).
    + rewrite (main_cycle_quiet _ _ _ st w bat Hb Hg) in Hrun.
      injection Hrun as <- <-. repeat split. now left.
  - rewrite (main_cycle_no_battery _ _ _ st w Hb) in Hrun.
    injection Hrun as <- <-. repeat split. now left.
Qed.

Lemma run_cons_inv (st st' : loop_state) (w : world) (ws : list world)
  (t : list event) :
  run st (w :: ws) = (t, Ret st') ->
  exists t1 st1 t2,
    cycle st w = (t1, Ret st1) /\ run st1 ws = (t2, Ret st') /\
    t = (t1 ++ t2)%list.
Proof. cbn [run_cycles]. apply bind_ret_inv. Qed.


(** X13.  The bookkeeping of a run: [last_status] is the status of the
    most recent sample, notified or not (the stored one if no cycle had a
    sample), and [last_notify] is the stored timestamp or a clock reading
    taken in one of the cycles. *)
Theorem run_bookkeeping
  (st st' : loop_state) (ws : list world) (t : list event) :
  run st ws = (t, Ret st') ->
  last_status st' = latest_status (last_status st) ws /\
  (last_notify st' = last_notify st
   \/ In (last_notify st') (map clock_stamp ws)).
Proof.
  revert st t. induction ws as [|w ws IH]; intros st t Hrun.
  - cbn in Hrun. injection Hrun as _ <-. split; [reflexivity | now left].
  - apply run_cons_inv in Hrun as (t1 & st1 & t2 & Hc & Hr & ->).
    apply cycle_returns_inv in Hc as (_ & Hls & Hln).
    destruct (IH _ _ Hr) as (IHs & IHn).
    split.
    + rewrite IHs, Hls. reflexivity.
    + cbn [map In]. destruct IHn as [E | HIn]; [|now right; right].
      rewrite E. destruct Hln as [-> | ->]; [now left | now right; left].
Qed.

Lemma cycle_benign_returns (st : loop_state) (w : world) :
  benign w = true -> exists t st', cycle st w = (t, Ret st').
Proof.
  intros Hben.
  destruct (sensors_battery w) as [bat|] eqn:Hb.
  - destruct (status_differs (info_status (sample bat)) (last_status st)
              && Qgtb (double_sub (clock_check w) (last_notify st)) 10) eqn:Hg.
    + rewrite (main_cycle_fires _ _ _ st w bat Hb Hg).
      remember (status_message (sample bat)) as msg eqn:Hmsg.
      destruct (notify_benign w msg Hben) as (tn & Hn & _).
      rewrite Hn. eexists _, _. reflexivity.
    + rewrite (main_cycle_quiet _ _ _ st w bat Hb Hg). eexists _, _. reflexivity.
  - rewrite (main_cycle_no_battery _ _ _ st w Hb). eexists _, _. reflexivity.
Qed.


(** A run whose samples all have the stored status: nothing is sent and
    the state keeps its status and its timestamp. *)
Lemma steady_run_silent (s : status) (ws : list world) (st : loop_state) :
  last_status st = Some s ->
  Forall (fun w => sample_status w = None \/ sample_status w = Some s) ws ->
  exists t st',
    run st ws = (t, Ret st') /\ sends t = [] /\
    last_status st' = Some s /\ last_notify st' = last_notify st.
Proof.
  intros Hst Hall. revert st Hst.
  induction Hall as [|w ws Hw _ IH]; intros st Hst; cbn [run_cycles].
  - exists [], st. repeat split; auto.
  - unfold sample_status in Hw.
    destruct (sensors_battery w) as [bat|] eqn:Hb.
    + assert (Hw' : info_status (sample bat) = s)
        by (destruct Hw as [Hw | Hw]; [discriminate Hw | now injection Hw]).
      assert (Hg : status_differs (info_status (sample bat)) (last_status st)
                   && Qgtb (double_sub (clock_check w) (last_notify st)) 10 = false).
      { rewrite Hst, Hw', status_differs_same. reflexivity. }
      rewrite (main_cycle_quiet _ _ _ st w bat Hb Hg). cbn [bind].
      destruct (IH {| last_status := Some (info_status (sample bat));
                      last_notify := last_notify st |})
        as (t & st' & Hr & Hs & Hl & Hn); [cbn [last_status]; now rewrite Hw'|].
      rewrite Hr. eexists _, st'. split; [reflexivity|].
      repeat split; assumption.
    + rewrite (main_cycle_no_battery _ _ _ st w Hb). cbn [bind].
      destruct (IH st Hst) as (t & st' & Hr & Hs & Hl & Hn).
      rewrite Hr. eexists _, st'. split; [reflexivity|].
      repeat split; assumption.
Qed.

(** X15.  A steady status stays silent for as long as it lasts: from a
    state that stores status [s], a run of any length whose samples all
    classify as [s] (cycles without a battery in between allowed) sends
    nothing and keeps the timestamp of the last notification. *)
Theorem steady_status_stays_silent
  (s : status) (ws : list world) (st : loop_state) :
  last_status st = Some s ->
  Forall (fun w => sample_status w = None \/ sample_status w = Some s) ws ->
  exists t st',
    run st ws = (t, Ret st') /\ sends t = [] /\
    last_status st' = Some s /\ last_notify st' = last_notify st.
Proof. apply steady_run_silent. Qed.

(** X16.  A change that comes too early is never announced: when the
    status changes within ten seconds of the last notification, that cycle
    stores the new status without sending, and no later cycle with the
    same status sends either, however much time passes. *)
Theorem early_change_is_never_announced
  (st : loop_state) (w : world) (bat : sbattery) (ws : list world) :
  sensors_battery w = Some bat ->
  last_status st <> Some (info_status (sample bat)) ->
  (clock_check w - last_notify st <= 10)%Q ->
  Forall (fun w' => sample_status w' = None
                    \/ sample_status w' = Some (info_status (sample bat))) ws ->
  exists t st',
    run st (w :: ws) = (t, Ret st') /\ sends t = [] /\
    last_status st' = Some (info_status (sample bat)) /\
    last_notify st' = last_notify st.
Proof.
  intros Hb Hd Hgap Hall.
  assert (Hg : status_differs (info_status (sample bat)) (last_status st)
               && Qgtb (double_sub (clock_check w) (last_notify st)) 10 = false).
  { apply andb_false_intro2. now apply guard_false_within_10. }
  cbn [run_cycles]. rewrite (main_cycle_quiet _ _ _ st w bat Hb Hg). cbn [bind].
  destruct (steady_run_silent (info_status (sample bat)) ws
              {| last_status := Some (info_status (sample bat));
                 last_notify := last_notify st |} eq_refl Hall)
    as (t & st' & Hr & Hs & Hl & Hn).
  rewrite Hr. eexists _, st'. split; [reflexivity|].
  repeat split; assumption.
Qed.

(** X17.  An exception the handlers let through ends the loop on the
    spot: when a notifying cycle (status changed, float gap above ten)
    meets one during the Telegram exchange, the run stops after the printed
    line and the request, with no toast, no sleep and no further cycle. *)
Theorem uncaught_exception_ends_run
  (st : loop_state) (w : world) (bat : sbattery) (ws : list world) (e : exn) :
  sensors_battery w = Some bat ->
  last_status st <> Some (info_status (sample bat)) ->
  (10 < double_sub (clock_check w) (last_notify st))%Q ->
  Py.truthy BOT_TOKEN = true -> Py.truthy CHAT_ID = true ->
  http_failure w = Some e -> is_Exception e = false ->
  run st (w :: ws)
  = ([Print (status_message (sample bat));
      telegram_request BOT_TOKEN CHAT_ID
        (battery_emoji ++ " " ++ status_message (sample bat))],
     Raise e).
Proof.
  intros Hb Hd Hgap Ht Hc Hf He.
  assert (Hg : status_differs (info_status (sample bat)) (last_status st)
               && Qgtb (double_sub (clock_check w) (last_notify st)) 10 = true).
  { apply andb_true_intro. split;
      [now apply status_differs_true | now apply Qgtb_spec]. }
  cbn [run_cycles]. rewrite (main_cycle_fires _ _ _ st w bat Hb Hg).
  remember (status_message (sample bat)) as msg eqn:Hmsg.
  unfold notify. rewrite Ht, Hc. cbn [andb].
  rewrite (send_telegram_message_uncaught w BOT_TOKEN CHAT_ID
             (battery_emoji ++ " " ++ msg) e Ht Hc Hf He).
  reflexivity.
Qed.

End LoopExtras.

Lemma send_requires_change_and_gap_witness :
  let w := calm_world (Some (reading 15 false)) 1730000000 in
  exists bat,
    sensors_battery w = Some bat /\
    last_status initial_state
    <> Some (info_status (battery_sample LOW_THRESHOLD HIGH_THRESHOLD bat)) /\
    (10 < clock_check w - last_notify initial_state)%Q.
Proof.
  apply (send_requires_change_and_gap "TOKEN" "779" true initial_state
           (calm_world (Some (reading 15 false)) 1730000000)).
  intros H. vm_compute in H. discriminate H.
Defined.


Lemma run_bookkeeping_witness :
  let st' := {| last_status := Some low; last_notify := double_of 1730000060 |} in
  last_status st' = latest_status None three_cycles /\
  (last_notify st' = last_notify initial_state
   \/ In (last_notify st') (map clock_stamp three_cycles)).
Proof.
  refine (run_bookkeeping "TOKEN" "779" true initial_state
            {| last_status := Some low; last_notify := double_of 1730000060 |}
            three_cycles
            (trace (run_cycles "TOKEN" "779" true initial_state three_cycles)) _).
  reflexivity.
Defined.


Lemma steady_status_stays_silent_witness :
  let st := {| last_status := Some low; last_notify := double_of 1000 |} in
  exists t st',
    run_cycles "TOKEN" "779" true st three_cycles = (t, Ret st') /\
    sends t = [] /\ last_status st' = Some low /\
    last_notify st' = last_notify st.
Proof.
  apply (steady_status_stays_silent "TOKEN" "779" true low three_cycles
           {| last_status := Some low; last_notify := double_of 1000 |}).
  - reflexivity.
  - repeat (constructor; [first [left; reflexivity | right; reflexivity]|]).
    constructor.
Defined.

Lemma early_change_is_never_announced_witness :
  let st := {| last_status := Some normal; last_notify := double_of 1730000055 |} in
  exists t st',
    run_cycles "TOKEN" "779" true st
      (calm_world (Some (reading 15 false)) 1730000060
       :: [calm_world (Some (reading 14 false)) 1730000120;
           calm_world (Some (reading 13 false)) 1730086400])
    = (t, Ret st') /\
    sends t = [] /\
    last_status st'
    = Some (info_status (battery_sample LOW_THRESHOLD HIGH_THRESHOLD
                           (reading 15 false))) /\
    last_notify st' = last_notify st.
Proof.
  apply (early_change_is_never_announced "TOKEN" "779" true
           {| last_status := Some normal; last_notify := double_of 1730000055 |}
           (calm_world (Some (reading 15 false)) 1730000060)
           (reading 15 false)).
  - reflexivity.
  - discriminate.
  - cbn. discriminate.
  - repeat (constructor; [right; reflexivity|]). constructor.
Defined.

Lemma uncaught_exception_ends_run_witness :
  let stop := {| exn_cls := KeyboardInterrupt; exn_str := "" |} in
  let w := {| sensors_battery := Some (reading 15 false);
              clock_check := double_of 1730000000; clock_stamp := double_of 1730000000;
              urlopen_outcome := Some stop; read_outcome := None;
              toast_outcome := None |} in
  run_cycles "TOKEN" "779" true initial_state (w :: three_cycles)
  = ([Print (status_message (battery_sample LOW_THRESHOLD HIGH_THRESHOLD
                               (reading 15 false)));
      telegram_request "TOKEN" "779"
        (battery_emoji ++ " "
         ++ status_message (battery_sample LOW_THRESHOLD HIGH_THRESHOLD
                              (reading 15 false)))],
     Raise stop).
Proof.
  apply (uncaught_exception_ends_run "TOKEN" "779" true initial_state);
    first [reflexivity | discriminate].
Defined.
